(** * Rotation tools of [src/utils/rotation.py]: quaternions, rotation
    matrices and Euler angles.

    The module computes with numpy [float64] arrays.  Here a float is a real
    number of the Standard Library, so every statement below is about the
    algorithm in exact arithmetic: rounding, signed zeros, infinities and
    NaN are outside the model.  Arrays whose length the functions fix by
    unpacking or by their docstring (a quaternion, a 3-vector, a 3x3 matrix)
    are records; arrays whose shape a method checks at run time are lists. *)

From Stdlib Require Import Reals Lra Lia List String Ascii Bool Arith.
From Stdlib Require Import DecimalString Zfloor RNsatz.
Import ListNotations.

Open Scope R_scope.

(** ** Outcomes of a Python call *)

Inductive exn : Type :=
| Exception (message : string)
| UnboundLocalError (name : string)
| TypeError.

Inductive outcome (A : Type) : Type :=
| Return (a : A)
| Raise (e : exn).

Arguments Return {A} a.
Arguments Raise {A} e.

Definition bind {A B : Type} (m : outcome A) (k : A -> outcome B) : outcome B :=
  match m with
  | Return a => k a
  | Raise e => Raise e
  end.

Notation "x <- m ;; k" := (bind m (fun x => k))
  (at level 61, m at next level, right associativity).

(** Modelled from the spec: [log.log_and_raise_error], imported from the
    module [log] that is not among the sources.  Section 7 of the
    specification has every error raised synchronously and propagated to the
    caller; the logger's output is not kept. *)
Definition log_and_raise_error {A : Type} (message : string) : outcome A :=
  Raise (Exception message).

(** A local variable of a function body: [None] until it is assigned.
    Reading it before that raises [UnboundLocalError]. *)
Definition read_local {A : Type} (name : string) (slot : option A) : outcome A :=
  match slot with
  | Some v => Return v
  | None => Raise (UnboundLocalError name)
  end.

(** [%i] of a non-negative integer. *)
Definition str_of_nat (n : nat) : string :=
  NilEmpty.string_of_uint (Nat.to_uint n).

(** ** numpy scalars *)

Definition Rltb (a b : R) : bool := if Rlt_dec a b then true else false.

(** [numpy.sign] *)
Definition sign (x : R) : R :=
  if Rlt_dec x 0 then -1 else if Rlt_dec 0 x then 1 else 0.

(** [numpy.copysign a b]: the magnitude of [a] with the sign of [b]; a zero
    [b] counts as positive. *)
Definition copysign (a b : R) : R :=
  if Rlt_dec b 0 then - Rabs a else Rabs a.

(** [numpy.arctan2 y x], the angle of the point [(x, y)] in (-pi, pi].
    [numpy.arcsin] and [numpy.arccos] are [asin] and [acos] of the Standard
    Library, which agree with them on [-1, 1]. *)
Definition arctan2 (y x : R) : R :=
  if Rlt_dec 0 x then atan (y / x)
  else if Rlt_dec x 0 then
    (if Rle_dec 0 y then atan (y / x) + PI else atan (y / x) - PI)
  else if Rlt_dec 0 y then PI / 2
  else if Rlt_dec y 0 then - (PI / 2)
  else 0.

(** ** Arrays of fixed length *)

Record vec3 : Type := V3 { v_0 : R; v_1 : R; v_2 : R }.
Record quat : Type := Quat { q_w : R; q_x : R; q_y : R; q_z : R }.
Record mat3 : Type := M3 { row_0 : vec3; row_1 : vec3; row_2 : vec3 }.

(** [v[i]] and [v[i] = a] for [i] in 0..2 *)
Definition vget (v : vec3) (i : nat) : R :=
  match i with
  | O => v_0 v
  | S O => v_1 v
  | _ => v_2 v
  end.

Definition vset (v : vec3) (i : nat) (a : R) : vec3 :=
  match i with
  | O => V3 a (v_1 v) (v_2 v)
  | S O => V3 (v_0 v) a (v_2 v)
  | _ => V3 (v_0 v) (v_1 v) a
  end.

(** [q[i]] and [q[i] = a] for [i] in 0..3 *)
Definition qget (q : quat) (i : nat) : R :=
  match i with
  | O => q_w q
  | S O => q_x q
  | S (S O) => q_y q
  | _ => q_z q
  end.

Definition qset (q : quat) (i : nat) (a : R) : quat :=
  match i with
  | O => Quat a (q_x q) (q_y q) (q_z q)
  | S O => Quat (q_w q) a (q_y q) (q_z q)
  | S (S O) => Quat (q_w q) (q_x q) a (q_z q)
  | _ => Quat (q_w q) (q_x q) (q_y q) a
  end.

(** [R[i,j]] *)
Definition mrow (M : mat3) (i : nat) : vec3 :=
  match i with
  | O => row_0 M
  | S O => row_1 M
  | _ => row_2 M
  end.

Definition mget (M : mat3) (i j : nat) : R := vget (mrow M i) j.

Arguments vget v i%_nat.
Arguments vset v i%_nat a.
Arguments qget q i%_nat.
Arguments qset q i%_nat a.
Arguments mrow M i%_nat.
Arguments mget M (i j)%_nat.

Definition mcol (M : mat3) (j : nat) : vec3 :=
  V3 (mget M 0 j) (mget M 1 j) (mget M 2 j).

Arguments mcol M j%_nat.

Definition list_of_vec3 (v : vec3) : list R := [v_0 v; v_1 v; v_2 v].

(** [-q], [q0 - q1] and [q / l] on length-4 arrays *)
Definition qopp (q : quat) : quat :=
  Quat (- q_w q) (- q_x q) (- q_y q) (- q_z q).

Definition qsub (a b : quat) : quat :=
  Quat (q_w a - q_w b) (q_x a - q_x b) (q_y a - q_y b) (q_z a - q_z b).

Definition qdiv (q : quat) (l : R) : quat :=
  Quat (q_w q / l) (q_x q / l) (q_y q / l) (q_z q / l).

(** ** The module [linalg] *)

Module linalg.

(** Modelled from the spec: [linalg.length], from the module [linalg] that is
    not among the sources; the specification writes it as the norm of the
    array. *)
Definition length (q : quat) : R :=
  sqrt (q_w q * q_w q + q_x q * q_x q + q_y q * q_y q + q_z q * q_z q).

(** Modelled from the spec: [linalg.dotproduct], not among the sources; the
    specification's "dot product" of two 3-vectors. *)
Definition dotproduct (a b : vec3) : R :=
  v_0 a * v_0 b + v_1 a * v_1 b + v_2 a * v_2 b.

(** Modelled from the spec: [linalg.crossproduct], not among the sources; the
    [cross] of the specification's triple product. *)
Definition crossproduct (a b : vec3) : vec3 :=
  V3 (v_1 a * v_2 b - v_2 a * v_1 b)
     (v_2 a * v_0 b - v_0 a * v_2 b)
     (v_0 a * v_1 b - v_1 a * v_0 b).

End linalg.

(** [A.dot(B)] for 3x3 arrays and [A.dot(v)] for a 3x3 array and a vector *)
Definition mdot (A B : mat3) : mat3 :=
  let entry (i j : nat) := linalg.dotproduct (mrow A i) (mcol B j) in
  M3 (V3 (entry 0 0) (entry 0 1) (entry 0 2))%nat
     (V3 (entry 1 0) (entry 1 1) (entry 1 2))%nat
     (V3 (entry 2 0) (entry 2 1) (entry 2 2))%nat.

Definition mvdot (A : mat3) (v : vec3) : vec3 :=
  V3 (linalg.dotproduct (row_0 A) v)
     (linalg.dotproduct (row_1 A) v)
     (linalg.dotproduct (row_2 A) v).

(** [numpy.identity(3)] *)
Definition identity3 : mat3 :=
  M3 (V3 1 0 0) (V3 0 1 0) (V3 0 0 1).

(** ** Canonic rotation matrices (right hand rule) *)

Definition R_x (t : R) : mat3 :=
  M3 (V3 1 0 0)
     (V3 0 (cos t) (- sin t))
     (V3 0 (sin t) (cos t)).

Definition R_y (t : R) : mat3 :=
  M3 (V3 (cos t) 0 (sin t))
     (V3 0 1 0)
     (V3 (- sin t) 0 (cos t)).

Definition R_z (t : R) : mat3 :=
  M3 (V3 (cos t) (- sin t) 0)
     (V3 (sin t) (cos t) 0)
     (V3 0 0 1).

(** The loop of [R_euler] over [zip(euler_angles, rotation_axes)], [Rm] being
    the product so far. *)
Fixpoint R_euler_loop (Rm : mat3) (pairs : list (R * ascii)) : outcome mat3 :=
  match pairs with
  | [] => Return Rm
  | (ang, ax) :: rest =>
      if Ascii.eqb ax "x" then R_euler_loop (mdot Rm (R_x ang)) rest
      else if Ascii.eqb ax "y" then R_euler_loop (mdot Rm (R_y ang)) rest
      else if Ascii.eqb ax "z" then R_euler_loop (mdot Rm (R_z ang)) rest
      else log_and_raise_error (String ax " is not a valid axis")
  end.

Definition R_euler (euler_angles : list R) (rotation_axes : string) : outcome mat3 :=
  R_euler_loop identity3 (combine euler_angles (list_ascii_of_string rotation_axes)).

(** ** Random rotation

    [rand_quat] takes no argument and reads [numpy.random.random(3)]; the
    three numbers drawn are the argument here. *)
Definition rand_quat (draws : R * R * R) : quat :=
  let '(x0, x1, x2) := draws in
  let theta1 := 2 * PI * x1 in
  let theta2 := 2 * PI * x2 in
  let s1 := sin theta1 in
  let s2 := sin theta2 in
  let c1 := cos theta1 in
  let c2 := cos theta2 in
  let r1 := sqrt (1 - x0) in
  let r2 := sqrt x0 in
  Quat (s1 * r1) (c1 * r1) (s2 * r2) (c2 * r2).

(** ** Conversions *)

Definition rotmx_from_quat (q : quat) : mat3 :=
  let '(Quat w x y z) := q in
  M3 (V3 (1 - 2 * (y ^ 2 + z ^ 2))
         (2 * (x * y - w * z))
         (2 * (x * z + w * y)))
     (V3 (2 * (x * y + w * z))
         (1 - 2 * (x ^ 2 + z ^ 2))
         (2 * (y * z - w * x)))
     (V3 (2 * (x * z - w * y))
         (2 * (y * z + w * x))
         (1 - 2 * (x ^ 2 + y ^ 2))).

(** Quaternion from angle and rotation unit vector (the lambda [quat]) *)
Definition quat_axis (theta ux uy uz : R) : quat :=
  Quat (cos (theta / 2))
       (sin (theta / 2) * ux)
       (sin (theta / 2) * uy)
       (sin (theta / 2) * uz).

Definition quat_x (theta : R) : quat := quat_axis theta 1 0 0.
Definition quat_y (theta : R) : quat := quat_axis theta 0 1 0.
Definition quat_z (theta : R) : quat := quat_axis theta 0 0 1.

(** [norm_quat]: the local [q_norm] is read in the first branch before any
    assignment to it. *)
Definition norm_quat (q : quat) (tolerance : R) : outcome quat :=
  let q_norm : option quat := None in
  let l := linalg.length q in
  if Rgt_dec (Rabs (l - 1)) tolerance then
    v <- read_local "q_norm" q_norm ;;
    v' <- read_local "q_norm" q_norm ;;
    Return (qdiv v (linalg.length v'))
  else
    Return q.

Definition default_tolerance : R := 1 / 100000.

Definition uniquify_quat (q : quat) : quat :=
  if Rlt_dec (qget q 0) 0 then qopp q
  else if Req_dec_T (qget q 0) 0 then
    if Rlt_dec (qget q 1) 0 then qopp q
    else if Req_dec_T (qget q 1) 0 then
      if Rlt_dec (qget q 2) 0 then qopp q
      else if Req_dec_T (qget q 2) 0 then
        if Rlt_dec (qget q 3) 0 then qopp q
        else q
      else q
    else q
  else q.

Definition quat_mult (q1 q2 : quat) : quat :=
  let '(Quat w1 x1 y1 z1) := q1 in
  let '(Quat w2 x2 y2 z2) := q2 in
  let w := w1 * w2 - x1 * x2 - y1 * y2 - z1 * z2 in
  let x := w1 * x2 + x1 * w2 + y1 * z2 - z1 * y2 in
  let y := w1 * y2 + y1 * w2 + z1 * x2 - x1 * z2 in
  let z := w1 * z2 + z1 * w2 + x1 * y2 - y1 * x2 in
  Quat w x y z.

Definition quat_conj (q : quat) : quat :=
  Quat (q_w q) (- q_x q) (- q_y q) (- q_z q).

(** [q[1:]] *)
Definition qtail (q : quat) : vec3 := V3 (q_x q) (q_y q) (q_z q).

Definition quat_vec_mult (q : quat) (v : vec3) : vec3 :=
  let q2 := Quat 0 (vget v 0) (vget v 1) (vget v 2) in
  qtail (quat_mult (quat_mult q q2) (quat_conj q)).

Definition rotate_quat (v : vec3) (q : quat) : vec3 := quat_vec_mult q v.

Definition quat_from_rotmx (Rm : mat3) : quat :=
  let q := Quat 0 0 0 0 in
  let q := qset q 0 (sqrt (Rmax 0 (1 + mget Rm 0 0 + mget Rm 1 1 + mget Rm 2 2)) / 2) in
  let q := qset q 1 (sqrt (Rmax 0 (1 + mget Rm 0 0 - mget Rm 1 1 - mget Rm 2 2)) / 2) in
  let q := qset q 2 (sqrt (Rmax 0 (1 - mget Rm 0 0 + mget Rm 1 1 - mget Rm 2 2)) / 2) in
  let q := qset q 3 (sqrt (Rmax 0 (1 - mget Rm 0 0 - mget Rm 1 1 + mget Rm 2 2)) / 2) in
  let q := qset q 1 (copysign (qget q 1) (mget Rm 2 1 - mget Rm 1 2)) in
  let q := qset q 2 (copysign (qget q 2) (mget Rm 0 2 - mget Rm 2 0)) in
  let q := qset q 3 (copysign (qget q 3) (mget Rm 1 0 - mget Rm 0 1)) in
  q.

(** ** Euler angles from a quaternion *)

(** [s in "xyz"] for a character [s] of the axes string *)
Definition in_xyz (s : ascii) : bool :=
  existsb (Ascii.eqb s) (list_ascii_of_string "xyz").

(** [0 if c == "x" else 1 if c == "y" else 2 if c == "z" else None] *)
Definition axis_index (c : option ascii) : option nat :=
  match c with
  | Some c =>
      if Ascii.eqb c "x" then Some 0%nat
      else if Ascii.eqb c "y" then Some 1%nat
      else if Ascii.eqb c "z" then Some 2%nat
      else None
  | None => None
  end.

Definition invalid_axes_message (rotation_axes : string) : string :=
  "Error: rotation_axes = " ++ rotation_axes ++ " is an invalid input.".

(** The image [v3r] of the unit vector along axis [i3] *)
Definition v3r_of (q : quat) (i3 : nat) : vec3 :=
  let v3 := vset (V3 0 0 0) i3 1 in
  rotate_quat v3 q.

(** The first two angles, by the four branches on [(i1, i2, i3)] *)
Definition euler_e0_e1 (v3r : vec3) (i1 i2 i3 : nat) : R * R :=
  (if ((i1 =? 0) && (i2 =? 2) && (i3 =? 0)) ||
      ((i1 =? 1) && (i2 =? 0) && (i3 =? 1)) ||
      ((i1 =? 2) && (i2 =? 1) && (i3 =? 2))
   then
     (arctan2 (vget v3r ((i1 + 2) mod 3)) (vget v3r ((i1 + 1) mod 3)),
      acos (vget v3r i1))
   else if ((i1 =? 0) && (i2 =? 2) && (i3 =? 1)) ||
           ((i1 =? 1) && (i2 =? 0) && (i3 =? 2)) ||
           ((i1 =? 2) && (i2 =? 1) && (i3 =? 0))
   then
     (arctan2 (vget v3r ((i1 + 2) mod 3)) (vget v3r ((i1 + 1) mod 3)),
      - asin (vget v3r i1))
   else if ((i1 =? 0) && (i2 =? 1) && (i3 =? 0)) ||
           ((i1 =? 1) && (i2 =? 2) && (i3 =? 1)) ||
           ((i1 =? 2) && (i2 =? 0) && (i3 =? 2))
   then
     (arctan2 (vget v3r ((i1 + 1) mod 3)) (- vget v3r ((i1 + 2) mod 3)),
      acos (vget v3r i1))
   else
     (arctan2 (- vget v3r ((i1 + 1) mod 3)) (vget v3r ((i1 + 2) mod 3)),
      asin (vget v3r i1)))%nat.

(** The body of [euler_from_quat] once the three indices are known *)
Definition euler_from_indices (q : quat) (i1 i2 i3 : nat) : vec3 :=
  let v3r := v3r_of q i3 in
  let '(e0, e1) := euler_e0_e1 v3r i1 i2 i3 in
  let q1 := qset (Quat (cos (e0 / 2)) 0 0 0) (1 + i1) (sin (e0 / 2)) in
  let q2 := qset (Quat (cos (e1 / 2)) 0 0 0) (1 + i2) (sin (e1 / 2)) in
  let q12 := quat_mult q1 q2 in
  let v3n := vset (V3 0 0 0) ((i3 + 1) mod 3) 1 in
  let v3n12 := quat_vec_mult q12 v3n in
  let v3nG := quat_vec_mult q v3n in
  let e2_mag := acos (linalg.dotproduct v3n12 v3nG) in
  let vc := linalg.crossproduct v3n12 v3nG in
  let m := linalg.dotproduct vc v3r in
  let e2 := sign m * e2_mag in
  V3 e0 e1 e2.

(** [euler_from_quat]: the lines printed, and the value returned ([None] for
    the bare [return] after a message).  An index [None] cannot be reached
    after the two checks; indexing with it is a [TypeError]. *)
Definition euler_from_quat (q : quat) (rotation_axes : string)
  : list string * outcome (option vec3) :=
  if negb (String.length rotation_axes =? 3)%nat then
    ([invalid_axes_message rotation_axes], Return None)
  else if negb (forallb in_xyz (list_ascii_of_string rotation_axes)) then
    ([invalid_axes_message rotation_axes], Return None)
  else
    let i1 := axis_index (String.get 0 rotation_axes) in
    let i2 := axis_index (String.get 1 rotation_axes) in
    let i3 := axis_index (String.get 2 rotation_axes) in
    match i1, i2, i3 with
    | Some i1, Some i2, Some i3 =>
        ([], Return (Some (euler_from_indices q i1 i2 i3)))
    | _, _, _ => ([], Raise TypeError)
    end.

(** ** The class [Rotation] *)

(** A numpy array whose shape is checked at run time: its [shape] and its
    elements in row-major order ([ravel]). *)
Record ndarray : Type := Array { shape : list nat; ravel : list R }.

Definition size (a : ndarray) : nat := List.length (ravel a).
Definition ndim (a : ndarray) : nat := List.length (shape a).

(** A one-dimensional array *)
Definition array1 (l : list R) : ndarray := Array [List.length l] l.

(** A list of three (four) numbers as a fixed-length array *)
Definition vec3_of_list (l : list R) : vec3 :=
  V3 (nth 0 l 0) (nth 1 l 0) (nth 2 l 0).

Definition quat_of_list (l : list R) : quat :=
  Quat (nth 0 l 0) (nth 1 l 0) (nth 2 l 0) (nth 3 l 0).

(** [v[::-1]] *)
Definition vrev (v : vec3) : vec3 := V3 (v_2 v) (v_1 v) (v_0 v).

(** [a[i*3:(i+1)*3]] *)
Definition slice3 (a : list R) (i : nat) : list R :=
  firstn 3 (skipn (i * 3) a).

Record Rotation : Type := { rotation_matrix : mat3 }.

Definition shape_message : string :=
  "Size of rotation variable does not match expected shape".

(** The setters replace the matrix of [self]; they return the object after
    the call. *)
Definition set_with_euler_angles (self : Rotation) (euler_angles : list R)
    (rotation_axes : string) : outcome Rotation :=
  if negb (List.length euler_angles =? 3)%nat then
    log_and_raise_error shape_message
  else
    Rm <- R_euler euler_angles rotation_axes ;;
    Return {| rotation_matrix := Rm |}.

Definition set_with_quaternion (self : Rotation) (quaternion : list R)
  : outcome Rotation :=
  if negb (List.length quaternion =? 4)%nat then
    log_and_raise_error shape_message
  else
    Return {| rotation_matrix := rotmx_from_quat (quat_of_list quaternion) |}.

Definition get_as_quaternion (self : Rotation) (uniquify : bool) : quat :=
  let q := quat_from_rotmx (rotation_matrix self) in
  if uniquify then uniquify_quat q else q.

Definition get_as_euler_angles (self : Rotation) (rotation_axes : string)
  : list string * outcome (option vec3) :=
  let q := get_as_quaternion self false in
  euler_from_quat q rotation_axes.

(** [((q0-q1)**2).sum()] *)
Definition sum_sq (d : quat) : R :=
  q_w d ^ 2 + q_x d ^ 2 + q_y d ^ 2 + q_z d ^ 2.

Definition is_similar (self rotation : Rotation) (tol : R) : bool :=
  let q0 := get_as_quaternion self true in
  let q1 := get_as_quaternion rotation true in
  let err := sqrt (sum_sq (qsub q0 q1)) in
  Rltb err tol.

Definition rotate_vector (self : Rotation) (vector : ndarray) (order : string)
  : outcome vec3 :=
  if negb (size vector =? 3)%nat || negb (ndim vector =? 1)%nat then
    log_and_raise_error
      ("Cannot rotate vector. Vector has incompatible size ("
         ++ str_of_nat (size vector) ++ ") or number of dimensions ("
         ++ str_of_nat (ndim vector) ++ ").")
  else
    let v := vec3_of_list (ravel vector) in
    if String.eqb order "xyz" then
      Return (mvdot (rotation_matrix self) v)
    else if String.eqb order "zyx" then
      Return (mvdot (rotation_matrix self) (vrev v))
    else
      log_and_raise_error ("Corrdinates in order=" ++ order ++ " is invalid.").

Definition rotate_vectors (self : Rotation) (vectors : ndarray) (order : string)
  : outcome (list vec3) :=
  if negb (ndim vectors =? 2)%nat && negb (ndim vectors =? 1)%nat then
    log_and_raise_error
      "Cannot rotate vectors. Input must have either one or two dimensions"
  else
    let n_ax := last (shape vectors) 0%nat in
    let N := size vectors in
    let Nv := (N / 3)%nat in
    if (ndim vectors =? 2)%nat && negb (n_ax =? 3)%nat then
      log_and_raise_error
        ("Cannot rotate vectors. The given array has length "
           ++ str_of_nat n_ax ++ " in last dimension but should be 3.")
    else if (ndim vectors =? 1)%nat && negb (N mod 3 =? 0)%nat then
      log_and_raise_error
        ("Cannot rotate vectors. The given array has size "
           ++ str_of_nat n_ax ++ " which is not a multiple of 3.")
    else if String.eqb order "xyz" then
      Return (map (fun i =>
                     mvdot (rotation_matrix self)
                           (vec3_of_list (slice3 (ravel vectors) i)))
                  (seq 0 Nv))
    else if String.eqb order "zyx" then
      Return (map (fun i =>
                     vrev (mvdot (rotation_matrix self)
                                 (vrev (vec3_of_list (slice3 (ravel vectors) i)))))
                  (seq 0 Nv))
    else
      log_and_raise_error ("Corrdinates in order=" ++ order ++ " is invalid.").

Arguments euler_from_indices : simpl never.

(** ** Notions the statements use *)

(** [M.T] *)
Definition mtranspose (M : mat3) : mat3 :=
  M3 (mcol M 0) (mcol M 1) (mcol M 2).

(** The quarter turn about z *)
Definition quarter_turn_z : mat3 :=
  M3 (V3 0 (-1) 0) (V3 1 0 0) (V3 0 0 1).

(** The half turn about z *)
Definition half_turn_z : mat3 :=
  M3 (V3 (-1) 0 0) (V3 0 (-1) 0) (V3 0 0 1).

(** A 3-character string over x, y, z: what the two checks at the head of
    [euler_from_quat] let through. *)
Definition valid_axes (rotation_axes : string) : bool :=
  (String.length rotation_axes =? 3)%nat
  && forallb in_xyz (list_ascii_of_string rotation_axes).

(** The twelve axis sequences, as [_test_euler_from_quat] lists them *)
Definition rotation_axes_list : list string :=
  ["xyz"; "xzy"; "yxz"; "yzx"; "zxy"; "zyx";
   "yxy"; "zxz"; "xyx"; "zyz"; "xzx"; "yzy"]%string.

Definition is_supported (rotation_axes : string) : bool :=
  existsb (String.eqb rotation_axes) rotation_axes_list.

(** [-q] of a length-4 array given as a list *)
Definition neg_array (q : list R) : list R := map Ropp q.

(** ** Further methods of [Rotation] *)

Definition list_of_quat (q : quat) : list R := [q_w q; q_x q; q_y q; q_z q].

(** [set_with_rotation_matrix], for the 3x3 array of its docstring: its size
    is 9 and its dimension 2, so the shape check passes and the unitarity
    loop over the diagonal of [M.dot(M.T)] decides. *)
Definition unitary_tol : R := 1 / 10000.

Definition not_unitary_message : string :=
  "Given matrix cannot be a rotation matrix because it is not unitary".

Fixpoint unitary_loop (I : mat3) (tol : R) (indices : list nat) : outcome unit :=
  match indices with
  | [] => Return tt
  | i :: rest =>
      if Rgt_dec (Rabs (mget I i i - 1)) tol then
        log_and_raise_error not_unitary_message
      else unitary_loop I tol rest
  end.

Definition set_with_rotation_matrix (self : Rotation) (rotation_matrix : mat3)
  : outcome Rotation :=
  let I := mdot rotation_matrix (mtranspose rotation_matrix) in
  let tol := unitary_tol in
  _ <- unitary_loop I tol (seq 0 3) ;;
  Return {| rotation_matrix := rotation_matrix |}.

Definition get_as_rotation_matrix (self : Rotation) : mat3 :=
  rotation_matrix self.

(** [invert]: the quaternion of the matrix, its vector part negated in
    place, handed to [set_with_quaternion]. *)
Definition invert (self : Rotation) : outcome Rotation :=
  let q := get_as_quaternion self false in
  let q := Quat (qget q 0) (- qget q 1) (- qget q 2) (- qget q 3) in
  set_with_quaternion self (list_of_quat q).

(** The process-wide generator of [numpy.random]: the stream of uniform
    numbers it will hand out, and how many it has handed out so far. *)
Record rng : Type := { stream : nat -> R; cursor : nat }.

(** [numpy.random.rand()] *)
Definition rand (g : rng) : R * rng :=
  (stream g (cursor g), {| stream := stream g; cursor := S (cursor g) |}).

(** [numpy.random.random(3)] *)
Definition random3 (g : rng) : (R * R * R) * rng :=
  let '(x0, g) := rand g in
  let '(x1, g) := rand g in
  let '(x2, g) := rand g in
  ((x0, x1, x2), g).

Definition set_as_random (self : Rotation) (g : rng) : Rotation * rng :=
  let '(draws, g) := random3 g in
  let q := rand_quat draws in
  ({| rotation_matrix := rotmx_from_quat q |}, g).

Definition set_as_random_x (self : Rotation) (g : rng) : Rotation * rng :=
  let '(u, g) := rand g in
  let ang := u * 2 * PI in
  ({| rotation_matrix := R_x ang |}, g).

Definition set_as_random_y (self : Rotation) (g : rng) : Rotation * rng :=
  let '(u, g) := rand g in
  let ang := u * 2 * PI in
  ({| rotation_matrix := R_y ang |}, g).

Definition set_as_random_z (self : Rotation) (g : rng) : Rotation * rng :=
  let '(u, g) := rand g in
  let ang := u * 2 * PI in
  ({| rotation_matrix := R_z ang |}, g).

(** [_set_as_random_formalism]: an if/elif chain without [else] *)
Definition set_as_random_formalism (self : Rotation) (formalism : string) (g : rng)
  : Rotation * rng :=
  if String.eqb formalism "random" then set_as_random self g
  else if String.eqb formalism "random_x" then set_as_random_x self g
  else if String.eqb formalism "random_y" then set_as_random_y self g
  else if String.eqb formalism "random_z" then set_as_random_z self g
  else (self, g).

(** ** The class [Rotations] *)

Record Rotations : Type := {
  _formalism : option string;
  _i : nat;
  _values : option ndarray;
  _rotations : list Rotation
}.

(** What indexing an empty list, or taking a remainder by its length,
    raises *)
Inductive seq_error : Type := IndexError | ZeroDivisionError.

Definition random_formalisms : list string :=
  ["random"; "random_x"; "random_y"; "random_z"]%string.

(** [self._formalism in ["random","random_x","random_y","random_z"]] *)
Definition is_random_formalism (formalism : option string) : bool :=
  match formalism with
  | Some f => existsb (String.eqb f) random_formalisms
  | None => false
  end.

Definition get_formalism (self : Rotations) : option string := _formalism self.

Definition get_all_values (self : Rotations) : option ndarray := _values self.

Definition get_current_rotation (self : Rotations) : seq_error + Rotation :=
  match List.length (_rotations self) with
  | O => inl ZeroDivisionError
  | S _ =>
      match nth_error (_rotations self) (_i self mod List.length (_rotations self)) with
      | Some r => inr r
      | None => inl IndexError
      end
  end.

(** [get_next_rotation] returns the rotation, the object and the generator
    after the call.  For a random formalism the first rotation of the list
    is redrawn in place before it is read. *)
Definition get_next_rotation (self : Rotations) (g : rng)
  : seq_error + (Rotation * Rotations * rng) :=
  let redrawn :=
    if is_random_formalism (_formalism self) then
      match _rotations self, _formalism self with
      | r0 :: rest, Some f =>
          let '(r0', g') := set_as_random_formalism r0 f g in
          inr ({| _formalism := _formalism self; _i := _i self;
                  _values := _values self; _rotations := r0' :: rest |}, g')
      | _, _ => inl IndexError
      end
    else inr (self, g) in
  match redrawn with
  | inl e => inl e
  | inr (self, g) =>
      match get_current_rotation self with
      | inl e => inl e
      | inr rotation =>
          inr (rotation,
               {| _formalism := _formalism self; _i := _i self + 1;
                  _values := _values self; _rotations := _rotations self |},
               g)
      end
  end.

(** ** Normalising Euler angles of repeated-axis sequences *)

(** [x % m] on floats: the remainder with the sign of [m] *)
Definition pymod (x m : R) : R := x - m * IZR (Zfloor (x / m)).

(** [numpy.finfo("float64").resolution] *)
Definition resolution : R := 1 / 10 ^ 15.

Definition norm_euler_repax (euler : vec3) : vec3 :=
  let pi := PI in
  let twopi := 2 * pi in
  let euler := V3 (pymod (v_0 euler) twopi) (pymod (v_1 euler) twopi)
                  (pymod (v_2 euler) twopi) in
  let euler :=
    if Rge_dec (vget euler 1) pi then
      let euler := vset euler 0 (pymod (vget euler 0 + pi) twopi) in
      let euler := vset euler 1 (twopi - vget euler 1) in
      let euler := vset euler 2 (pymod (vget euler 2 + pi) twopi) in
      euler
    else euler in
  if Rlt_dec (Rabs (vget euler 0 + vget euler 2 - twopi)) resolution then
    vset (vset euler 0 0) 2 0
  else euler.

(** ** Further notions the statements use *)

(** [M.dot(M.T)] and [M.T.dot(M)] are both the identity *)
Definition orthogonal (M : mat3) : Prop :=
  mdot M (mtranspose M) = identity3 /\ mdot (mtranspose M) M = identity3.

(** Shoemake's matrix with the 1 of its diagonal written as the squared norm
    of the quaternion; it is [rotmx_from_quat] on unit quaternions. *)
Definition rotmx_hom (q : quat) : mat3 :=
  let '(Quat w x y z) := q in
  M3 (V3 (w * w + x * x - y * y - z * z) (2 * (x * y - w * z)) (2 * (x * z + w * y)))
     (V3 (2 * (x * y + w * z)) (w * w - x * x + y * y - z * z) (2 * (y * z - w * x)))
     (V3 (2 * (x * z - w * y)) (2 * (y * z + w * x)) (w * w - x * x - y * y + z * z)).

(** The squared norm of a quaternion *)
Definition norm2 (q : quat) : R :=
  q_w q * q_w q + q_x q * q_x q + q_y q * q_y q + q_z q * q_z q.

(** [k] successive calls of [get_next_rotation] *)
Fixpoint next_rotations (k : nat) (self : Rotations) (g : rng)
  : seq_error + (list Rotation * Rotations * rng) :=
  match k with
  | O => inr ([], self, g)
  | S k' =>
      match get_next_rotation self g with
      | inl e => inl e
      | inr (r, self', g') =>
          match next_rotations k' self' g' with
          | inl e => inl e
          | inr (rs, self'', g'') => inr (r :: rs, self'', g'')
          end
      end
  end.

(** The axis quaternion and the axis matrix of a character of the axes
    string *)
Definition axis_quat (ax : ascii) (theta : R) : quat :=
  if Ascii.eqb ax "x" then quat_x theta
  else if Ascii.eqb ax "y" then quat_y theta
  else quat_z theta.

Definition axis_matrix (ax : ascii) (theta : R) : mat3 :=
  if Ascii.eqb ax "x" then R_x theta
  else if Ascii.eqb ax "y" then R_y theta
  else R_z theta.

(** Row [i] of [M] has squared norm within the tolerance of 1 *)
Definition row_unit (M : mat3) (i : nat) : Prop :=
  Rabs (linalg.dotproduct (mrow M i) (mrow M i) - 1) <= unitary_tol.

(** The identity rotation, a default for [nth] *)
Definition identity_rotation : Rotation := {| rotation_matrix := identity3 |}.

(** [self] with its cursor moved to [i] *)
Definition with_cursor (self : Rotations) (i : nat) : Rotations :=
  {| _formalism := _formalism self; _i := i;
     _values := _values self; _rotations := _rotations self |}.

(** A generator that hands out the same number for ever *)
Definition constant_rng (u : R) : rng := {| stream := fun _ => u; cursor := 0 |}.

(** The canonic matrix about the axis of index [i] *)
Definition R_axis (i : nat) (t : R) : mat3 :=
  match i with
  | O => R_x t
  | S O => R_y t
  | _ => R_z t
  end.

(** The unit vector along the axis of index [i] *)
Definition unit_vec (i : nat) : vec3 := vset (V3 0 0 0) i 1.

(** [P] keeps cross products: together with orthogonality, determinant 1 *)
Definition keeps_cross (P : mat3) : Prop :=
  forall u v,
    linalg.crossproduct (mvdot P u) (mvdot P v) = mvdot P (linalg.crossproduct u v).

(** The six sequences with three distinct axes, and the six with a repeated
    axis *)
Definition tait_bryan_axes : list string :=
  ["xyz"; "yzx"; "zxy"; "xzy"; "yxz"; "zyx"]%string.

Definition proper_axes : list string :=
  ["xyx"; "xzx"; "yxy"; "yzy"; "zxz"; "zyz"]%string.

(** The angles on which [euler_from_quat] is the inverse of [R_euler]: first
    angle in (-pi, pi], third in (-pi, pi), and the middle one in
    (-pi/2, pi/2) for three distinct axes, in (0, pi) for a repeated axis. *)
Definition principal_range (rotation_axes : string) (a b c : R) : Prop :=
  - PI < a <= PI /\ - PI < c < PI /\
  ((In rotation_axes tait_bryan_axes /\ - (PI / 2) < b < PI / 2) \/
   (In rotation_axes proper_axes /\ 0 < b < PI)).

(** The product of the three axis quaternions of an angle triple *)
Definition euler_quat (c1 c2 c3 : ascii) (a b c : R) : quat :=
  quat_mult (quat_mult (axis_quat c1 a) (axis_quat c2 b)) (axis_quat c3 c).

(** * Properties *)

(** ** Tactics and arithmetic helpers *)

Ltac case_dec :=
  match goal with
  | |- context [Rlt_dec ?a ?b] => destruct (Rlt_dec a b)
  | |- context [Rle_dec ?a ?b] => destruct (Rle_dec a b)
  | |- context [Rgt_dec ?a ?b] => destruct (Rgt_dec a b)
  | |- context [Req_dec_T ?a ?b] => destruct (Req_dec_T a b)
  end.

Ltac quat_eq := try reflexivity; f_equal; lra.

Lemma mdot_identity3_l (M : mat3) : mdot identity3 M = M.
Proof.
  destruct M as [[a b c] [d e f] [g h i]].
  unfold mdot, identity3, mcol, mget, linalg.dotproduct. simpl.
  f_equal; f_equal; ring.
Qed.

Lemma sign_0 : sign 0 = 0.
Proof. unfold sign. repeat case_dec; lra. Qed.

Lemma copysign_nonneg (a b : R) : 0 <= a -> 0 <= b -> copysign a b = a.
Proof.
  intros Ha Hb. unfold copysign. case_dec; [lra|].
  now apply Rabs_pos_eq.
Qed.

Lemma length_1_sq (q : quat) :
  linalg.length q = 1 ->
  q_w q * q_w q + q_x q * q_x q + q_y q * q_y q + q_z q * q_z q = 1.
Proof.
  unfold linalg.length. intros H.
  set (s := q_w q * q_w q + q_x q * q_x q + q_y q * q_y q + q_z q * q_z q) in *.
  assert (Hs : 0 <= s) by (unfold s; nra).
  rewrite <- (sqrt_sqrt s Hs), H. ring.
Qed.

(** ** uniquify_quat *)

Lemma uniquify_quat_cases (q : quat) :
  uniquify_quat q = q \/ uniquify_quat q = qopp q.
Proof.
  unfold uniquify_quat. repeat case_dec; auto.
Qed.

Lemma uniquify_quat_idempotent (q : quat) :
  uniquify_quat (uniquify_quat q) = uniquify_quat q.
Proof.
  destruct q as [w x y z]. unfold uniquify_quat, qopp. simpl.
  repeat (case_dec; simpl in *; try lra); quat_eq.
Qed.

(** C10: [uniquify_quat q] is [q] or [-q], applying it twice is the same as
    applying it once, and the all-zero quaternion comes back unchanged. *)
Theorem uniquify_quat_sign_choice (q : quat) :
  (uniquify_quat q = q \/ uniquify_quat q = qopp q) /\
  uniquify_quat (uniquify_quat q) = uniquify_quat q /\
  uniquify_quat (Quat 0 0 0 0) = Quat 0 0 0 0.
Proof.
  split; [apply uniquify_quat_cases|].
  split; [apply uniquify_quat_idempotent|].
  unfold uniquify_quat. simpl. repeat (case_dec; try lra); reflexivity.
Qed.

(** ** norm_quat *)

Lemma norm_quat_within (q : quat) (tolerance : R) :
  Rabs (linalg.length q - 1) <= tolerance ->
  norm_quat q tolerance = Return q.
Proof.
  intros H. unfold norm_quat. case_dec; [lra | reflexivity].
Qed.

Lemma norm_quat_within_twice (q : quat) (tolerance : R) :
  Rabs (linalg.length q - 1) <= tolerance ->
  (q' <- norm_quat q tolerance ;; norm_quat q' tolerance) = Return q.
Proof.
  intros H. rewrite (norm_quat_within q tolerance H). simpl.
  now apply norm_quat_within.
Qed.

Lemma norm_quat_beyond (q : quat) (tolerance : R) :
  Rabs (linalg.length q - 1) > tolerance ->
  norm_quat q tolerance = Raise (UnboundLocalError "q_norm").
Proof.
  intros H. unfold norm_quat. case_dec; [reflexivity | lra].
Qed.

Lemma length_2000 : linalg.length (Quat 2 0 0 0) = 2.
Proof.
  unfold linalg.length. simpl.
  replace (2 * 2 + 0 * 0 + 0 * 0 + 0 * 0) with (2 * 2) by ring.
  apply sqrt_square; lra.
Qed.

(** C4: for the quaternion [2, 0, 0, 0], whose norm 2 is farther from 1 than
    the default tolerance, [norm_quat] raises [UnboundLocalError] (it reads
    [q_norm] before assigning it) where the rescaled quaternion
    [1, 0, 0, 0] is expected. *)
Theorem norm_quat_rescale_raises :
  Rabs (linalg.length (Quat 2 0 0 0) - 1) > default_tolerance /\
  norm_quat (Quat 2 0 0 0) default_tolerance = Raise (UnboundLocalError "q_norm") /\
  norm_quat (Quat 2 0 0 0) default_tolerance
    <> Return (qdiv (Quat 2 0 0 0) (linalg.length (Quat 2 0 0 0))).
Proof.
  assert (H : Rabs (linalg.length (Quat 2 0 0 0) - 1) > default_tolerance).
  { rewrite length_2000. unfold default_tolerance.
    rewrite Rabs_pos_eq; lra. }
  split; [exact H|].
  rewrite (norm_quat_beyond _ _ H). split; [reflexivity | discriminate].
Qed.

(** ** rotate_vector and rotate_vectors *)

Lemma rotate_vector_zyx (self : Rotation) (a b c : R) :
  rotate_vector self (array1 [a; b; c]) "zyx"
  = Return (mvdot (rotation_matrix self) (vrev (V3 a b c))).
Proof. reflexivity. Qed.

Lemma rotate_vectors_zyx (self : Rotation) (a b c : R) :
  rotate_vectors self (array1 [a; b; c]) "zyx"
  = Return [vrev (mvdot (rotation_matrix self) (vrev (V3 a b c)))].
Proof. reflexivity. Qed.

Lemma quarter_turn_z_orthogonal :
  mdot quarter_turn_z (mtranspose quarter_turn_z) = identity3.
Proof.
  unfold mdot, mtranspose, quarter_turn_z, identity3, mcol, mget, linalg.dotproduct.
  simpl. repeat f_equal; ring.
Qed.

(** C5: for the quarter turn about z and the vector [1, 0, 0],
    [rotate_vectors] with order "zyx" returns reverse(M . reverse(v)) =
    [1, 0, 0], while [rotate_vector] returns M . reverse(v) = [0, 0, 1]: it
    does not reverse the result. *)
Theorem rotate_vector_zyx_result_not_reversed :
  let self := {| rotation_matrix := quarter_turn_z |} in
  let v := array1 [1; 0; 0] in
  vrev (mvdot quarter_turn_z (vrev (V3 1 0 0))) = V3 1 0 0 /\
  rotate_vectors self v "zyx" = Return [V3 1 0 0] /\
  rotate_vector self v "zyx" = Return (V3 0 0 1) /\
  rotate_vector self v "zyx"
    <> Return (vrev (mvdot quarter_turn_z (vrev (V3 1 0 0)))).
Proof.
  intros self v.
  assert (E : mvdot quarter_turn_z (vrev (V3 1 0 0)) = V3 0 0 1).
  { unfold mvdot, quarter_turn_z, vrev, linalg.dotproduct. simpl. f_equal; ring. }
  unfold self, v. rewrite rotate_vector_zyx, rotate_vectors_zyx. simpl.
  rewrite E. simpl. repeat split; try reflexivity.
  intros H. injection H as H0 _. lra.
Qed.

(** ** Axis strings *)

Lemma in_xyz_inv (c : ascii) :
  in_xyz c = true -> c = "x"%char \/ c = "y"%char \/ c = "z"%char.
Proof.
  unfold in_xyz. simpl. rewrite !orb_true_iff, !Ascii.eqb_eq.
  intros [H | [H | [H | H]]]; auto. discriminate.
Qed.

Lemma valid_axes_inv (axes : string) :
  valid_axes axes = true ->
  exists c1 c2 c3,
    axes = String c1 (String c2 (String c3 EmptyString)) /\
    in_xyz c1 = true /\ in_xyz c2 = true /\ in_xyz c3 = true.
Proof.
  unfold valid_axes. intros H. apply andb_true_iff in H as [Hl Hc].
  destruct axes as [|c1 [|c2 [|c3 [|c4 rest]]]]; simpl in Hl; try discriminate.
  simpl in Hc. rewrite !andb_true_iff in Hc.
  destruct Hc as (H1 & H2 & H3 & _).
  exists c1, c2, c3. auto.
Qed.

Lemma euler_from_quat_valid (q : quat) (axes : string) :
  valid_axes axes = true ->
  exists i1 i2 i3,
    axis_index (String.get 0 axes) = Some i1 /\
    axis_index (String.get 1 axes) = Some i2 /\
    axis_index (String.get 2 axes) = Some i3 /\
    euler_from_quat q axes = ([], Return (Some (euler_from_indices q i1 i2 i3))).
Proof.
  intros H. destruct (valid_axes_inv axes H) as (c1 & c2 & c3 & -> & H1 & H2 & H3).
  apply in_xyz_inv in H1, H2, H3.
  destruct H1 as [-> | [-> | ->]]; destruct H2 as [-> | [-> | ->]];
    destruct H3 as [-> | [-> | ->]];
    do 3 eexists; repeat split; reflexivity.
Qed.

Lemma euler_from_quat_invalid (q : quat) (axes : string) :
  valid_axes axes = false ->
  euler_from_quat q axes = ([invalid_axes_message axes], Return None).
Proof.
  unfold valid_axes, euler_from_quat. intros H.
  destruct (String.length axes =? 3)%nat; simpl in *; [|reflexivity].
  now rewrite H.
Qed.

(** [euler_from_quat] has no raising path at all. *)
Lemma euler_from_quat_never_raises (q : quat) (axes : string) (e : exn) :
  snd (euler_from_quat q axes) <> Raise e.
Proof.
  destruct (valid_axes axes) eqn:H.
  - destruct (euler_from_quat_valid q axes H) as (i1 & i2 & i3 & _ & _ & _ & ->).
    discriminate.
  - rewrite (euler_from_quat_invalid q axes H). discriminate.
Qed.

(** C6, as amended: for every axes argument that is not a 3-character string
    over x, y, z, [euler_from_quat] prints its error message and returns
    [None]; it raises nothing. *)
Theorem euler_from_quat_invalid_axes_returns_none (q : quat) (axes : string) :
  valid_axes axes = false ->
  euler_from_quat q axes = ([invalid_axes_message axes], Return None) /\
  forall e, snd (euler_from_quat q axes) <> Raise e.
Proof.
  intros H. split.
  - now apply euler_from_quat_invalid.
  - intros e. apply euler_from_quat_never_raises.
Qed.

Lemma euler_from_quat_invalid_axes_returns_none_witness :
  valid_axes "xy" = false /\
  euler_from_quat (Quat 1 0 0 0) "xy" = ([invalid_axes_message "xy"], Return None) /\
  forall e, snd (euler_from_quat (Quat 1 0 0 0) "xy") <> Raise e.
Proof.
  split; [reflexivity|].
  apply (euler_from_quat_invalid_axes_returns_none (Quat 1 0 0 0) "xy").
  reflexivity.
Defined.

(** C6 as stated fails: "xy" is not a 3-character string, and the call returns
    instead of raising. *)
Lemma euler_from_quat_invalid_axes_no_raise :
  valid_axes "xy" = false /\
  ~ (exists e, snd (euler_from_quat (Quat 1 0 0 0) "xy") = Raise e).
Proof.
  split; [reflexivity|].
  intros [e H]. unfold euler_from_quat in H. simpl in H. discriminate.
Qed.

(** ** Axis sequences outside the twelve conventions *)

Lemma R_euler_valid (e0 e1 e2 : R) (axes : string) :
  valid_axes axes = true ->
  exists M, R_euler [e0; e1; e2] axes = Return M.
Proof.
  intros H. destruct (valid_axes_inv axes H) as (c1 & c2 & c3 & -> & H1 & H2 & H3).
  apply in_xyz_inv in H1, H2, H3.
  destruct H1 as [-> | [-> | ->]]; destruct H2 as [-> | [-> | ->]];
    destruct H3 as [-> | [-> | ->]];
    eexists; reflexivity.
Qed.

Lemma R_euler_three (e0 e1 e2 : R) (c1 c2 c3 : ascii) :
  in_xyz c1 = true -> in_xyz c2 = true -> in_xyz c3 = true ->
  R_euler [e0; e1; e2] (String c1 (String c2 (String c3 EmptyString)))
  = Return (mdot (mdot (axis_matrix c1 e0) (axis_matrix c2 e1))
                 (axis_matrix c3 e2)).
Proof.
  intros H1 H2 H3. apply in_xyz_inv in H1, H2, H3.
  destruct H1 as [-> | [-> | ->]]; destruct H2 as [-> | [-> | ->]];
    destruct H3 as [-> | [-> | ->]];
    match goal with
    | |- R_euler _ (String ?a (String ?b (String ?c _))) = _ =>
        transitivity
          (Return (mdot (mdot (mdot identity3 (axis_matrix a e0)) (axis_matrix b e1))
                        (axis_matrix c e2)));
        [reflexivity | now rewrite mdot_identity3_l]
    end.
Qed.

(** C7, as amended: every 3-character sequence over x, y, z is accepted,
    whether or not it is one of the twelve conventions: [R_euler] and
    [set_with_euler_angles] return the product of the three axis rotations
    (the canonic matrix of each character at its angle, in sequence order)
    and [euler_from_quat] returns the angle triple its branches compute for
    the three axis indices, printing nothing. *)
Theorem euler_axes_all_accepted (self : Rotation) (q : quat) (e0 e1 e2 : R)
    (axes : string) (c1 c2 c3 : ascii) :
  valid_axes axes = true ->
  String.get 0 axes = Some c1 ->
  String.get 1 axes = Some c2 ->
  String.get 2 axes = Some c3 ->
  R_euler [e0; e1; e2] axes
  = Return (mdot (mdot (axis_matrix c1 e0) (axis_matrix c2 e1))
                 (axis_matrix c3 e2)) /\
  set_with_euler_angles self [e0; e1; e2] axes
  = Return {| rotation_matrix :=
                mdot (mdot (axis_matrix c1 e0) (axis_matrix c2 e1))
                     (axis_matrix c3 e2) |} /\
  (exists i1 i2 i3,
     axis_index (Some c1) = Some i1 /\
     axis_index (Some c2) = Some i2 /\
     axis_index (Some c3) = Some i3 /\
     euler_from_quat q axes
     = ([], Return (Some (euler_from_indices q i1 i2 i3)))).
Proof.
  intros H G1 G2 G3.
  assert (HR : R_euler [e0; e1; e2] axes
               = Return (mdot (mdot (axis_matrix c1 e0) (axis_matrix c2 e1))
                              (axis_matrix c3 e2))).
  { destruct (valid_axes_inv axes H) as (d1 & d2 & d3 & E & H1 & H2 & H3).
    rewrite E in G1, G2, G3. simpl in G1, G2, G3.
    injection G1 as <-. injection G2 as <-. injection G3 as <-.
    rewrite E. now apply R_euler_three. }
  split; [exact HR|]. split.
  - unfold set_with_euler_angles. cbn [List.length Nat.eqb negb].
    now rewrite HR.
  - destruct (euler_from_quat_valid q axes H) as (i1 & i2 & i3 & F1 & F2 & F3 & E).
    rewrite G1 in F1. rewrite G2 in F2. rewrite G3 in F3.
    exists i1, i2, i3. auto.
Qed.

Lemma euler_axes_all_accepted_witness :
  R_euler [1; 2; 3] "zzx"
  = Return (mdot (mdot (axis_matrix "z" 1) (axis_matrix "z" 2))
                 (axis_matrix "x" 3)) /\
  set_with_euler_angles {| rotation_matrix := identity3 |} [1; 2; 3] "zzx"
  = Return {| rotation_matrix :=
                mdot (mdot (axis_matrix "z" 1) (axis_matrix "z" 2))
                     (axis_matrix "x" 3) |} /\
  (exists i1 i2 i3,
     axis_index (Some "z"%char) = Some i1 /\
     axis_index (Some "z"%char) = Some i2 /\
     axis_index (Some "x"%char) = Some i3 /\
     euler_from_quat (Quat (3/5) 0 (4/5) 0) "zzx"
     = ([], Return (Some (euler_from_indices (Quat (3/5) 0 (4/5) 0) i1 i2 i3)))).
Proof.
  apply (euler_axes_all_accepted {| rotation_matrix := identity3 |}
           (Quat (3/5) 0 (4/5) 0) 1 2 3 "zzx" "z" "z" "x"); reflexivity.
Defined.

(** C7 as stated fails: "zzx" is not among the twelve conventions, yet neither
    [R_euler] nor [euler_from_quat] rejects it, while "zxz" is accepted as
    claimed. *)
Lemma zzx_not_rejected :
  valid_axes "zzx" = true /\ is_supported "zzx" = false /\
  is_supported "zxz" = true /\
  ~ (exists err, R_euler [0; 0; 0] "zzx" = Raise err) /\
  ~ (exists err, snd (euler_from_quat (Quat 1 0 0 0) "zzx") = Raise err) /\
  fst (euler_from_quat (Quat 1 0 0 0) "zzx") = [] /\
  snd (euler_from_quat (Quat 1 0 0 0) "zzx") <> Return None.
Proof.
  repeat split; try reflexivity.
  - intros [err H]. unfold R_euler in H. simpl in H. discriminate.
  - intros [err H]. revert H. apply euler_from_quat_never_raises.
  - unfold euler_from_quat. simpl. discriminate.
Qed.

(** ** Quaternion double cover *)

Lemma rotmx_from_quat_opp (q : quat) :
  rotmx_from_quat (qopp q) = rotmx_from_quat q.
Proof.
  destruct q as [w x y z]. unfold rotmx_from_quat, qopp. simpl.
  f_equal; f_equal; ring.
Qed.

Lemma is_similar_refl (r : Rotation) (tol : R) :
  0 < tol -> is_similar r r tol = true.
Proof.
  intros Htol. unfold is_similar.
  set (q := get_as_quaternion r true).
  replace (sum_sq (qsub q q)) with 0.
  - rewrite sqrt_0. unfold Rltb. case_dec; [reflexivity | lra].
  - unfold sum_sq, qsub. simpl. ring.
Qed.

Lemma quat_of_list_neg (w x y z : R) :
  quat_of_list (neg_array [w; x; y; z]) = qopp (quat_of_list [w; x; y; z]).
Proof. reflexivity. Qed.

(** C8: for every length-4 array [q], the rotation set from [q] and the one
    set from [-q] are similar at the default tolerance 1e-5 (indeed they hold
    the same matrix). *)
Theorem is_similar_double_cover (self : Rotation) (q : list R) :
  List.length q = 4%nat ->
  exists r0 r1,
    set_with_quaternion self q = Return r0 /\
    set_with_quaternion self (neg_array q) = Return r1 /\
    is_similar r0 r1 default_tolerance = true.
Proof.
  intros Hlen.
  destruct q as [|w [|x [|y [|z [|u rest]]]]]; try discriminate.
  unfold set_with_quaternion.
  do 2 eexists. split; [reflexivity|]. split; [reflexivity|].
  rewrite quat_of_list_neg, rotmx_from_quat_opp.
  apply is_similar_refl. unfold default_tolerance. lra.
Qed.

Lemma is_similar_double_cover_witness :
  List.length [1; 0; 0; 0] = 4%nat /\
  exists r0 r1,
    set_with_quaternion {| rotation_matrix := identity3 |} [1; 0; 0; 0] = Return r0 /\
    set_with_quaternion {| rotation_matrix := identity3 |} (neg_array [1; 0; 0; 0])
    = Return r1 /\
    is_similar r0 r1 default_tolerance = true.
Proof.
  split; [reflexivity|].
  apply (is_similar_double_cover {| rotation_matrix := identity3 |} [1; 0; 0; 0]).
  reflexivity.
Defined.

(** ** rand_quat *)

Lemma rand_quat_unit (x0 x1 x2 : R) :
  0 <= x0 <= 1 -> linalg.length (rand_quat (x0, x1, x2)) = 1.
Proof.
  intros Hx0. unfold linalg.length, rand_quat. simpl.
  set (t1 := 2 * PI * x1). set (t2 := 2 * PI * x2).
  assert (H1 : sqrt (1 - x0) * sqrt (1 - x0) = 1 - x0) by (apply sqrt_sqrt; lra).
  assert (H2 : sqrt x0 * sqrt x0 = x0) by (apply sqrt_sqrt; lra).
  pose proof (sin2_cos2 t1) as T1. pose proof (sin2_cos2 t2) as T2.
  unfold Rsqr in T1, T2.
  replace (sin t1 * sqrt (1 - x0) * (sin t1 * sqrt (1 - x0)) +
           cos t1 * sqrt (1 - x0) * (cos t1 * sqrt (1 - x0)) +
           sin t2 * sqrt x0 * (sin t2 * sqrt x0) +
           cos t2 * sqrt x0 * (cos t2 * sqrt x0))
    with ((sin t1 * sin t1 + cos t1 * cos t1) * (sqrt (1 - x0) * sqrt (1 - x0)) +
          (sin t2 * sin t2 + cos t2 * cos t2) * (sqrt x0 * sqrt x0)) by ring.
  rewrite T1, T2, H1, H2.
  replace (1 * (1 - x0) + 1 * x0) with 1 by ring.
  apply sqrt_1.
Qed.

(** C9, as amended: for draws x0, x1, x2 in [0,1) and theta1 = 2 pi x1,
    theta2 = 2 pi x2, [rand_quat] returns
    [sin theta1 sqrt(1-x0), cos theta1 sqrt(1-x0), sin theta2 sqrt x0,
     cos theta2 sqrt x0], and this array has norm exactly 1. *)
Theorem rand_quat_components (x0 x1 x2 : R) :
  0 <= x0 < 1 -> 0 <= x1 < 1 -> 0 <= x2 < 1 ->
  rand_quat (x0, x1, x2)
  = Quat (sin (2 * PI * x1) * sqrt (1 - x0))
         (cos (2 * PI * x1) * sqrt (1 - x0))
         (sin (2 * PI * x2) * sqrt x0)
         (cos (2 * PI * x2) * sqrt x0) /\
  sum_sq (rand_quat (x0, x1, x2)) = 1 /\
  linalg.length (rand_quat (x0, x1, x2)) = 1.
Proof.
  intros H0 H1 H2. split; [reflexivity|].
  assert (L : linalg.length (rand_quat (x0, x1, x2)) = 1)
    by (apply rand_quat_unit; lra).
  split; [|exact L].
  apply length_1_sq in L. unfold sum_sq. rewrite <- L. ring.
Qed.

Lemma rand_quat_components_witness :
  (0 <= 0 < 1) /\
  rand_quat (0, 0, 0)
  = Quat (sin (2 * PI * 0) * sqrt (1 - 0))
         (cos (2 * PI * 0) * sqrt (1 - 0))
         (sin (2 * PI * 0) * sqrt 0)
         (cos (2 * PI * 0) * sqrt 0) /\
  sum_sq (rand_quat (0, 0, 0)) = 1 /\
  linalg.length (rand_quat (0, 0, 0)) = 1.
Proof.
  split; [lra|].
  apply (rand_quat_components 0 0 0); lra.
Defined.

(** C9 as stated fails: for the draws (0, 0, 0) the array returned is
    [0, 1, 0, 0], not the claimed
    [cos theta2 sqrt x0, sin theta1 sqrt(1-x0), cos theta1 sqrt(1-x0),
     sin theta2 sqrt x0] = [0, 0, 1, 0]. *)
Lemma rand_quat_order_differs :
  (0 <= 0 < 1) /\
  rand_quat (0, 0, 0) = Quat 0 1 0 0 /\
  rand_quat (0, 0, 0)
  <> Quat (cos (2 * PI * 0) * sqrt 0)
          (sin (2 * PI * 0) * sqrt (1 - 0))
          (cos (2 * PI * 0) * sqrt (1 - 0))
          (sin (2 * PI * 0) * sqrt 0).
Proof.
  assert (E : rand_quat (0, 0, 0) = Quat 0 1 0 0).
  { unfold rand_quat. cbv zeta beta iota.
    rewrite Rmult_0_r, Rminus_0_r, sin_0, cos_0, sqrt_0, sqrt_1.
    f_equal; ring. }
  split; [lra|]. split; [exact E|].
  rewrite E, Rmult_0_r, Rminus_0_r, sin_0, cos_0, sqrt_0, sqrt_1.
  intros H. injection H as _ H _. lra.
Qed.

(** ** The middle angle of Tait-Bryan sequences *)










(** ** Matrix to quaternion and back *)

Lemma half_sqrt_max (t a : R) :
  t = 4 * (a * a) -> sqrt (Rmax 0 t) / 2 = Rabs a.
Proof.
  intros ->. rewrite Rmax_right by nra.
  replace (4 * (a * a)) with (Rsqr (2 * a)) by (unfold Rsqr; ring).
  rewrite sqrt_Rsqr_abs, Rabs_mult, (Rabs_pos_eq 2) by lra. field.
Qed.

(** What the trace formula and the three [copysign] calls recover from the
    matrix of a unit quaternion: the magnitudes, and the signs of w*x, w*y
    and w*z. *)
Lemma quat_from_rotmx_of_quat (w x y z : R) :
  w * w + x * x + y * y + z * z = 1 ->
  quat_from_rotmx (rotmx_from_quat (Quat w x y z))
  = Quat (Rabs w)
         (copysign (Rabs x) (4 * (w * x)))
         (copysign (Rabs y) (4 * (w * y)))
         (copysign (Rabs z) (4 * (w * z))).
Proof.
  intros H. unfold quat_from_rotmx, rotmx_from_quat. simpl.
  f_equal.
  - apply half_sqrt_max. nra.
  - f_equal; [apply half_sqrt_max; nra | ring].
  - f_equal; [apply half_sqrt_max; nra | ring].
  - f_equal; [apply half_sqrt_max; nra | ring].
Qed.

Lemma copysign_abs_pos (w a : R) :
  0 < w -> copysign (Rabs a) (4 * (w * a)) = a.
Proof.
  intros Hw. unfold copysign. rewrite Rabs_Rabsolu.
  case_dec; unfold Rabs; destruct (Rcase_abs a); nra.
Qed.

Lemma copysign_abs_neg (w a : R) :
  w < 0 -> copysign (Rabs a) (4 * (w * a)) = - a.
Proof.
  intros Hw. unfold copysign. rewrite Rabs_Rabsolu.
  case_dec; unfold Rabs; destruct (Rcase_abs a); nra.
Qed.

Lemma copysign_abs_zero (a : R) :
  copysign (Rabs a) (4 * (0 * a)) = Rabs a.
Proof.
  unfold copysign. rewrite Rabs_Rabsolu. case_dec; [lra | reflexivity].
Qed.

(** Away from half turns ([w <> 0]) the round trip is exact. *)
Lemma quat_roundtrip_w_nonzero (q : quat) :
  linalg.length q = 1 -> q_w q <> 0 ->
  uniquify_quat (quat_from_rotmx (rotmx_from_quat q)) = uniquify_quat q.
Proof.
  intros Hl Hw. apply length_1_sq in Hl.
  destruct q as [w x y z]. simpl in Hl, Hw.
  rewrite (quat_from_rotmx_of_quat w x y z Hl).
  destruct (Rlt_dec w 0) as [Hneg | Hpos].
  - rewrite !(copysign_abs_neg w) by exact Hneg.
    rewrite (Rabs_left w Hneg).
    unfold uniquify_quat, qopp. simpl.
    repeat (case_dec; try lra); reflexivity.
  - assert (Hw' : 0 < w) by lra.
    rewrite !(copysign_abs_pos w) by exact Hw'.
    rewrite (Rabs_pos_eq w) by lra.
    unfold uniquify_quat, qopp. simpl.
    repeat (case_dec; try lra); reflexivity.
Qed.

(** With [w = 0] all three [copysign] calls see a zero and answer with the
    magnitude. *)
Lemma quat_from_rotmx_half_turn (x y z : R) :
  x * x + y * y + z * z = 1 ->
  quat_from_rotmx (rotmx_from_quat (Quat 0 x y z))
  = Quat 0 (Rabs x) (Rabs y) (Rabs z).
Proof.
  intros H. rewrite quat_from_rotmx_of_quat by lra.
  rewrite !copysign_abs_zero, Rabs_R0. reflexivity.
Qed.

(** C2: for the unit quaternion [0, 3/5, -4/5, 0] (a half turn),
    [quat_from_rotmx (rotmx_from_quat q)] canonicalized is
    [0, 3/5, 4/5, 0] while [uniquify_quat q] is [q] itself: the y components
    are 8/5 apart, far more than 1e-5. *)
Theorem quat_roundtrip_half_turn_loses_sign :
  linalg.length (Quat 0 (3/5) (-4/5) 0) = 1 /\
  uniquify_quat (quat_from_rotmx (rotmx_from_quat (Quat 0 (3/5) (-4/5) 0)))
  = Quat 0 (3/5) (4/5) 0 /\
  uniquify_quat (Quat 0 (3/5) (-4/5) 0) = Quat 0 (3/5) (-4/5) 0 /\
  Rabs (q_y (uniquify_quat (quat_from_rotmx (rotmx_from_quat (Quat 0 (3/5) (-4/5) 0))))
        - q_y (uniquify_quat (Quat 0 (3/5) (-4/5) 0))) > default_tolerance.
Proof.
  assert (L : linalg.length (Quat 0 (3/5) (-4/5) 0) = 1).
  { unfold linalg.length. simpl.
    replace (0 * 0 + 3 / 5 * (3 / 5) + -4 / 5 * (-4 / 5) + 0 * 0) with 1 by field.
    apply sqrt_1. }
  assert (A : uniquify_quat (quat_from_rotmx (rotmx_from_quat (Quat 0 (3/5) (-4/5) 0)))
              = Quat 0 (3/5) (4/5) 0).
  { rewrite quat_from_rotmx_half_turn by field.
    rewrite (Rabs_pos_eq (3/5)) by lra.
    rewrite (Rabs_left (-4/5)) by lra.
    rewrite Rabs_R0.
    unfold uniquify_quat. simpl. repeat (case_dec; try lra). f_equal; field. }
  assert (B : uniquify_quat (Quat 0 (3/5) (-4/5) 0) = Quat 0 (3/5) (-4/5) 0).
  { unfold uniquify_quat. simpl. repeat (case_dec; try lra); reflexivity. }
  split; [exact L|]. split; [exact A|]. split; [exact B|].
  rewrite A, B. simpl. unfold default_tolerance.
  replace (4 / 5 - -4 / 5) with (8 / 5) by field.
  rewrite Rabs_pos_eq; lra.
Qed.

(** ** Euler angles to matrix and back *)

Lemma R_x_0 : R_x 0 = identity3.
Proof.
  unfold R_x, identity3. rewrite sin_0, cos_0.
  f_equal; f_equal; ring.
Qed.

Lemma R_y_0 : R_y 0 = identity3.
Proof.
  unfold R_y, identity3. rewrite sin_0, cos_0.
  f_equal; f_equal; ring.
Qed.

Lemma R_z_0 : R_z 0 = identity3.
Proof.
  unfold R_z, identity3. rewrite sin_0, cos_0.
  f_equal; f_equal; ring.
Qed.

Lemma R_z_PI : R_z PI = half_turn_z.
Proof.
  unfold R_z, half_turn_z. rewrite sin_PI, cos_PI.
  f_equal; f_equal; ring.
Qed.

Lemma R_euler_xyz (e0 e1 e2 : R) :
  R_euler [e0; e1; e2] "xyz"
  = Return (mdot (mdot (mdot identity3 (R_x e0)) (R_y e1)) (R_z e2)).
Proof. reflexivity. Qed.

Lemma R_euler_xyz_half_turn : R_euler [0; 0; PI] "xyz" = Return half_turn_z.
Proof.
  rewrite R_euler_xyz, R_x_0, R_y_0, R_z_PI, !mdot_identity3_l. reflexivity.
Qed.

Lemma R_euler_xyz_zero : R_euler [0; 0; 0] "xyz" = Return identity3.
Proof.
  rewrite R_euler_xyz, R_x_0, R_y_0, R_z_0, !mdot_identity3_l. reflexivity.
Qed.

Lemma quat_from_rotmx_half_turn_z : quat_from_rotmx half_turn_z = Quat 0 0 0 1.
Proof.
  unfold quat_from_rotmx, half_turn_z. simpl.
  rewrite (half_sqrt_max (1 + -1 + -1 + 1) 0) by ring.
  rewrite (half_sqrt_max (1 + -1 - -1 - 1) 0) by ring.
  rewrite (half_sqrt_max (1 - -1 + -1 - 1) 0) by ring.
  rewrite (half_sqrt_max (1 - -1 - -1 + 1) 1) by ring.
  rewrite Rabs_R0, Rabs_R1.
  rewrite !copysign_nonneg by lra. reflexivity.
Qed.

Lemma acos_m1 : acos (-1) = PI.
Proof. unfold acos. case_dec; [reflexivity | lra]. Qed.

Lemma arctan2_0_1 : arctan2 (- 0) 1 = 0.
Proof.
  unfold arctan2. case_dec; [|lra].
  replace (- 0 / 1) with 0 by field. apply atan_0.
Qed.

Lemma v3r_half_turn_z : v3r_of (Quat 0 0 0 1) 2 = V3 0 0 1.
Proof.
  unfold v3r_of, rotate_quat, quat_vec_mult, quat_mult, quat_conj, qtail.
  simpl. f_equal; ring.
Qed.

Lemma euler_e0_e1_half_turn_z : euler_e0_e1 (V3 0 0 1) 0 1 2 = (0, 0).
Proof.
  unfold euler_e0_e1. simpl. rewrite arctan2_0_1, asin_0. reflexivity.
Qed.

(** The third angle comes out as [sign 0 * pi]: the two images of the
    reference vector are opposite, so their cross product vanishes. *)
Lemma euler_from_indices_half_turn_z :
  euler_from_indices (Quat 0 0 0 1) 0 1 2 = V3 0 0 0.
Proof.
  unfold euler_from_indices.
  rewrite v3r_half_turn_z, euler_e0_e1_half_turn_z.
  cbv zeta iota beta.
  replace (0 / 2) with 0 by field. rewrite cos_0, sin_0.
  set (q12 := quat_mult _ _).
  assert (Q : q12 = Quat 1 0 0 0).
  { unfold q12, quat_mult. simpl. f_equal; ring. }
  rewrite Q. clear q12 Q.
  set (v3n12 := quat_vec_mult (Quat 1 0 0 0) _).
  assert (A : v3n12 = V3 1 0 0).
  { unfold v3n12, quat_vec_mult, quat_mult, quat_conj, qtail. simpl.
    f_equal; ring. }
  set (v3nG := quat_vec_mult (Quat 0 0 0 1) _).
  assert (B : v3nG = V3 (-1) 0 0).
  { unfold v3nG, quat_vec_mult, quat_mult, quat_conj, qtail. simpl.
    f_equal; ring. }
  rewrite A, B. clear v3n12 A v3nG B.
  replace (linalg.dotproduct (V3 1 0 0) (V3 (-1) 0 0)) with (-1)
    by (unfold linalg.dotproduct; simpl; ring).
  replace (linalg.dotproduct (linalg.crossproduct (V3 1 0 0) (V3 (-1) 0 0)) (V3 0 0 1))
    with 0
    by (unfold linalg.dotproduct, linalg.crossproduct; simpl; ring).
  rewrite sign_0, acos_m1. f_equal. ring.
Qed.

Lemma euler_from_quat_half_turn_z :
  euler_from_quat (Quat 0 0 0 1) "xyz" = ([], Return (Some (V3 0 0 0))).
Proof.
  unfold euler_from_quat. simpl.
  now rewrite euler_from_indices_half_turn_z.
Qed.

(** C1: for the sequence "xyz" and the angles [0, 0, pi] the matrix is the
    half turn about z, its quaternion is [0, 0, 0, 1], and [euler_from_quat]
    answers [0, 0, 0]; the matrix rebuilt from that is the identity, whose
    first entry is at distance 2 from the original. *)
Theorem euler_roundtrip_half_turn_z_lost :
  is_supported "xyz" = true /\
  (0 <= 0 < 2 * PI) /\ (0 <= 0 < PI) /\ (0 <= PI < 2 * PI) /\
  R_euler [0; 0; PI] "xyz" = Return half_turn_z /\
  quat_from_rotmx half_turn_z = Quat 0 0 0 1 /\
  euler_from_quat (Quat 0 0 0 1) "xyz" = ([], Return (Some (V3 0 0 0))) /\
  R_euler (list_of_vec3 (V3 0 0 0)) "xyz" = Return identity3 /\
  Rabs (mget identity3 0 0 - mget half_turn_z 0 0) = 2.
Proof.
  pose proof PI_RGT_0 as Hpi.
  split; [reflexivity|].
  split; [lra|]. split; [lra|]. split; [lra|].
  split; [apply R_euler_xyz_half_turn|].
  split; [apply quat_from_rotmx_half_turn_z|].
  split; [apply euler_from_quat_half_turn_z|].
  split; [apply R_euler_xyz_zero|].
  simpl. replace (1 - -1) with 2 by ring. apply Rabs_pos_eq. lra.
Qed.

(** * Further properties *)

(** ** Quaternion algebra *)

Ltac quat_ring :=
  unfold rotate_quat; unfold quat_vec_mult;
  unfold quat_mult, quat_conj, qtail, qopp, linalg.dotproduct, norm2, sum_sq;
  simpl; try (f_equal; ring); try ring.

(** X1: the quaternion product is associative. *)
Theorem quat_mult_assoc (a b c : quat) :
  quat_mult (quat_mult a b) c = quat_mult a (quat_mult b c).
Proof. destruct a, b, c. quat_ring. Qed.

Lemma norm2_mult (a b : quat) :
  norm2 (quat_mult a b) = norm2 a * norm2 b.
Proof. destruct a, b. quat_ring. Qed.

Lemma norm2_nonneg (q : quat) : 0 <= norm2 q.
Proof. unfold norm2. nra. Qed.

Lemma length_norm2 (q : quat) : linalg.length q = sqrt (norm2 q).
Proof. reflexivity. Qed.

Lemma norm2_unit (q : quat) : linalg.length q = 1 -> norm2 q = 1.
Proof. exact (length_1_sq q). Qed.

(** X2: the norm of a product is the product of the norms; in particular a
    product of unit quaternions is a unit quaternion. *)
Theorem quat_mult_length (a b : quat) :
  linalg.length (quat_mult a b) = linalg.length a * linalg.length b /\
  (linalg.length a = 1 -> linalg.length b = 1 ->
   linalg.length (quat_mult a b) = 1).
Proof.
  assert (E : linalg.length (quat_mult a b) = linalg.length a * linalg.length b).
  { rewrite !length_norm2, norm2_mult.
    apply sqrt_mult; apply norm2_nonneg. }
  split; [exact E|]. intros Ha Hb. rewrite E, Ha, Hb. ring.
Qed.

(** X3: conjugation is an involution, it reverses products, and a
    quaternion times its conjugate is its squared norm, a real. *)
Theorem quat_conj_laws (a b : quat) :
  quat_conj (quat_conj a) = a /\
  quat_conj (quat_mult a b) = quat_mult (quat_conj b) (quat_conj a) /\
  quat_mult a (quat_conj a) = Quat (norm2 a) 0 0 0.
Proof. destruct a, b. repeat split; quat_ring. Qed.

Lemma rotmx_hom_unit (q : quat) :
  norm2 q = 1 -> rotmx_from_quat q = rotmx_hom q.
Proof.
  destruct q as [w x y z]. unfold norm2. simpl. intros H.
  unfold rotmx_from_quat, rotmx_hom. simpl.
  f_equal; f_equal; nra.
Qed.

Lemma rotate_quat_hom (v : vec3) (q : quat) :
  rotate_quat v q = mvdot (rotmx_hom q) v.
Proof.
  destruct q as [w x y z], v as [a b c].
  unfold rotate_quat, quat_vec_mult, quat_mult, quat_conj, qtail, mvdot,
    rotmx_hom, linalg.dotproduct. simpl.
  f_equal; ring.
Qed.

(** X4: rotating a vector with a unit quaternion is multiplying it by the
    matrix of that quaternion. *)
Theorem rotate_quat_is_rotmx (v : vec3) (q : quat) :
  linalg.length q = 1 ->
  rotate_quat v q = mvdot (rotmx_from_quat q) v.
Proof.
  intros H. apply norm2_unit in H.
  rewrite (rotmx_hom_unit q H). apply rotate_quat_hom.
Qed.

Lemma rotate_quat_is_rotmx_witness :
  rotate_quat (V3 1 2 3) (Quat 1 0 0 0)
  = mvdot (rotmx_from_quat (Quat 1 0 0 0)) (V3 1 2 3).
Proof.
  apply (rotate_quat_is_rotmx (V3 1 2 3) (Quat 1 0 0 0)).
  unfold linalg.length. simpl.
  replace (1 * 1 + 0 * 0 + 0 * 0 + 0 * 0) with 1 by ring. apply sqrt_1.
Defined.

(** X5: [rotate_quat] scales the squared length of every vector by the
    fourth power of the quaternion's norm, so unit quaternions keep lengths
    and others do not. *)
Theorem rotate_quat_length (v : vec3) (q : quat) :
  linalg.dotproduct (rotate_quat v q) (rotate_quat v q)
  = norm2 q * norm2 q * linalg.dotproduct v v.
Proof. destruct q, v. quat_ring. Qed.

(** X6: rotating by [q2] and then by [q1] is rotating by the product
    [quat_mult q1 q2], for all quaternions. *)
Theorem rotate_quat_compose (v : vec3) (q1 q2 : quat) :
  rotate_quat (rotate_quat v q2) q1 = rotate_quat v (quat_mult q1 q2).
Proof. destruct q1, q2, v. quat_ring. Qed.

(** ** The matrix of a quaternion *)

Lemma rotmx_hom_mult (a b : quat) :
  rotmx_hom (quat_mult a b) = mdot (rotmx_hom a) (rotmx_hom b).
Proof.
  destruct a, b.
  unfold rotmx_hom, quat_mult, mdot, mcol, mget, linalg.dotproduct. simpl.
  f_equal; f_equal; ring.
Qed.

Lemma rotmx_hom_gram (q : quat) :
  mdot (rotmx_hom q) (mtranspose (rotmx_hom q))
  = M3 (V3 (norm2 q * norm2 q) 0 0) (V3 0 (norm2 q * norm2 q) 0)
       (V3 0 0 (norm2 q * norm2 q)) /\
  mdot (mtranspose (rotmx_hom q)) (rotmx_hom q)
  = M3 (V3 (norm2 q * norm2 q) 0 0) (V3 0 (norm2 q * norm2 q) 0)
       (V3 0 0 (norm2 q * norm2 q)).
Proof.
  destruct q.
  unfold rotmx_hom, mtranspose, mdot, mcol, mget, linalg.dotproduct, norm2.
  simpl. split; f_equal; f_equal; ring.
Qed.

Lemma rotmx_orthogonal (q : quat) :
  norm2 q = 1 -> orthogonal (rotmx_from_quat q).
Proof.
  intros H. rewrite (rotmx_hom_unit q H).
  destruct (rotmx_hom_gram q) as [G1 G2].
  unfold orthogonal. rewrite G1, G2, H.
  unfold identity3. split; f_equal; f_equal; ring.
Qed.

(** X7: the matrix of a unit quaternion is orthogonal: its product with its
    transpose, on either side, is the identity. *)
Theorem rotmx_from_quat_orthogonal (q : quat) :
  linalg.length q = 1 -> orthogonal (rotmx_from_quat q).
Proof. intros H. apply rotmx_orthogonal. now apply norm2_unit. Qed.

Lemma length_3_4 : linalg.length (Quat (3/5) 0 (4/5) 0) = 1.
Proof.
  unfold linalg.length. simpl.
  replace (3 / 5 * (3 / 5) + 0 * 0 + 4 / 5 * (4 / 5) + 0 * 0) with 1 by field.
  apply sqrt_1.
Qed.

Lemma rotmx_from_quat_orthogonal_witness :
  orthogonal (rotmx_from_quat (Quat (3/5) 0 (4/5) 0)).
Proof.
  apply (rotmx_from_quat_orthogonal (Quat (3/5) 0 (4/5) 0)).
  apply length_3_4.
Defined.

Lemma double_angle (t : R) :
  cos t = 1 - 2 * sin (t / 2) * sin (t / 2) /\
  sin t = 2 * sin (t / 2) * cos (t / 2).
Proof.
  pose proof (cos_2a_sin (t / 2)) as C. pose proof (sin_2a (t / 2)) as S.
  replace (2 * (t / 2)) with t in C, S by field. split; assumption.
Qed.

Lemma rotmx_quat_x (t : R) : rotmx_from_quat (quat_x t) = R_x t.
Proof.
  destruct (double_angle t) as [C S].
  unfold quat_x, quat_axis, rotmx_from_quat, R_x. rewrite C, S.
  f_equal; f_equal; ring.
Qed.

Lemma rotmx_quat_y (t : R) : rotmx_from_quat (quat_y t) = R_y t.
Proof.
  destruct (double_angle t) as [C S].
  unfold quat_y, quat_axis, rotmx_from_quat, R_y. rewrite C, S.
  f_equal; f_equal; ring.
Qed.

Lemma rotmx_quat_z (t : R) : rotmx_from_quat (quat_z t) = R_z t.
Proof.
  destruct (double_angle t) as [C S].
  unfold quat_z, quat_axis, rotmx_from_quat, R_z. rewrite C, S.
  f_equal; f_equal; ring.
Qed.

(** X8: the matrices of the axis quaternions [quat_x], [quat_y], [quat_z]
    are exactly the canonic matrices [R_x], [R_y], [R_z], for every angle
    (what [_test_rotmx_from_quat] samples). *)
Theorem rotmx_from_axis_quat (t : R) :
  rotmx_from_quat (quat_x t) = R_x t /\
  rotmx_from_quat (quat_y t) = R_y t /\
  rotmx_from_quat (quat_z t) = R_z t.
Proof.
  split; [apply rotmx_quat_x|]. split; [apply rotmx_quat_y | apply rotmx_quat_z].
Qed.

Lemma rotmx_mult (a b : quat) :
  norm2 a = 1 -> norm2 b = 1 ->
  rotmx_from_quat (quat_mult a b) = mdot (rotmx_from_quat a) (rotmx_from_quat b).
Proof.
  intros Ha Hb.
  rewrite (rotmx_hom_unit a Ha), (rotmx_hom_unit b Hb), <- rotmx_hom_mult.
  apply rotmx_hom_unit. rewrite norm2_mult, Ha, Hb. ring.
Qed.

(** X9: for unit quaternions the matrix of a product is the product of the
    matrices. *)
Theorem rotmx_from_quat_mult (a b : quat) :
  linalg.length a = 1 -> linalg.length b = 1 ->
  rotmx_from_quat (quat_mult a b) = mdot (rotmx_from_quat a) (rotmx_from_quat b).
Proof.
  intros Ha Hb. apply rotmx_mult; now apply norm2_unit.
Qed.

Lemma rotmx_from_quat_mult_witness :
  rotmx_from_quat (quat_mult (Quat (3/5) 0 (4/5) 0) (Quat (3/5) 0 (4/5) 0))
  = mdot (rotmx_from_quat (Quat (3/5) 0 (4/5) 0))
         (rotmx_from_quat (Quat (3/5) 0 (4/5) 0)).
Proof.
  apply (rotmx_from_quat_mult (Quat (3/5) 0 (4/5) 0) (Quat (3/5) 0 (4/5) 0));
    apply length_3_4.
Defined.

Lemma rotmx_conj (q : quat) :
  rotmx_from_quat (quat_conj q) = mtranspose (rotmx_from_quat q).
Proof.
  destruct q.
  unfold rotmx_from_quat, quat_conj, mtranspose, mcol, mget. simpl.
  f_equal; f_equal; ring.
Qed.

(** X10: the matrix of the conjugate quaternion is the transpose of the
    matrix, for every quaternion. *)
Theorem rotmx_from_quat_conj (q : quat) :
  rotmx_from_quat (quat_conj q) = mtranspose (rotmx_from_quat q).
Proof. apply rotmx_conj. Qed.

(** ** Matrices of Euler angles *)

Lemma mdot_assoc (A B C : mat3) : mdot (mdot A B) C = mdot A (mdot B C).
Proof.
  destruct A as [[? ? ?] [? ? ?] [? ? ?]], B as [[? ? ?] [? ? ?] [? ? ?]],
    C as [[? ? ?] [? ? ?] [? ? ?]].
  unfold mdot, mcol, mget, linalg.dotproduct. simpl. f_equal; f_equal; ring.
Qed.

Lemma mtranspose_mdot (A B : mat3) :
  mtranspose (mdot A B) = mdot (mtranspose B) (mtranspose A).
Proof.
  destruct A as [[? ? ?] [? ? ?] [? ? ?]], B as [[? ? ?] [? ? ?] [? ? ?]].
  unfold mtranspose, mdot, mcol, mget, linalg.dotproduct. simpl.
  f_equal; f_equal; ring.
Qed.

Lemma mdot_identity3_r (M : mat3) : mdot M identity3 = M.
Proof.
  destruct M as [[a b c] [d e f] [g h i]].
  unfold mdot, identity3, mcol, mget, linalg.dotproduct. simpl.
  f_equal; f_equal; ring.
Qed.

Lemma orthogonal_identity3 : orthogonal identity3.
Proof.
  unfold orthogonal, mtranspose, mdot, identity3, mcol, mget, linalg.dotproduct.
  simpl. split; f_equal; f_equal; ring.
Qed.

Lemma orthogonal_mdot (A B : mat3) :
  orthogonal A -> orthogonal B -> orthogonal (mdot A B).
Proof.
  intros [A1 A2] [B1 B2]. unfold orthogonal. rewrite mtranspose_mdot. split.
  - rewrite mdot_assoc, <- (mdot_assoc B), B1, mdot_identity3_l. exact A1.
  - rewrite mdot_assoc, <- (mdot_assoc (mtranspose A)), A2, mdot_identity3_l.
    exact B2.
Qed.

Lemma sin_cos_sq (t : R) : sin t * sin t + cos t * cos t = 1.
Proof. exact (sin2_cos2 t). Qed.

Lemma orthogonal_R_x (t : R) : orthogonal (R_x t).
Proof.
  pose proof (sin_cos_sq t) as H.
  unfold orthogonal, R_x, mtranspose, mdot, identity3, mcol, mget,
    linalg.dotproduct. simpl.
  split; f_equal; f_equal; nra.
Qed.

Lemma orthogonal_R_y (t : R) : orthogonal (R_y t).
Proof.
  pose proof (sin_cos_sq t) as H.
  unfold orthogonal, R_y, mtranspose, mdot, identity3, mcol, mget,
    linalg.dotproduct. simpl.
  split; f_equal; f_equal; nra.
Qed.

Lemma orthogonal_R_z (t : R) : orthogonal (R_z t).
Proof.
  pose proof (sin_cos_sq t) as H.
  unfold orthogonal, R_z, mtranspose, mdot, identity3, mcol, mget,
    linalg.dotproduct. simpl.
  split; f_equal; f_equal; nra.
Qed.

Lemma R_euler_loop_orthogonal (pairs : list (R * ascii)) :
  forall Rm M,
    orthogonal Rm -> R_euler_loop Rm pairs = Return M -> orthogonal M.
Proof.
  induction pairs as [|[ang ax] rest IH]; intros Rm M HR; simpl.
  - intros [= <-]. exact HR.
  - destruct (Ascii.eqb ax "x").
    { apply IH. apply orthogonal_mdot; [exact HR | apply orthogonal_R_x]. }
    destruct (Ascii.eqb ax "y").
    { apply IH. apply orthogonal_mdot; [exact HR | apply orthogonal_R_y]. }
    destruct (Ascii.eqb ax "z").
    { apply IH. apply orthogonal_mdot; [exact HR | apply orthogonal_R_z]. }
    discriminate.
Qed.

(** X11: whatever angles and axes string [R_euler] is given, a matrix it
    returns is orthogonal. *)
Theorem R_euler_orthogonal (euler_angles : list R) (rotation_axes : string)
    (M : mat3) :
  R_euler euler_angles rotation_axes = Return M -> orthogonal M.
Proof.
  unfold R_euler. apply R_euler_loop_orthogonal, orthogonal_identity3.
Qed.

Lemma R_euler_orthogonal_witness :
  orthogonal (mdot (mdot (mdot identity3 (R_z 1)) (R_x 2)) (R_z 3)).
Proof.
  apply (R_euler_orthogonal [1; 2; 3] "zxz"). reflexivity.
Defined.

Lemma R_euler_loop_returns (pairs : list (R * ascii)) :
  forall Rm,
    (exists M, R_euler_loop Rm pairs = Return M)
    <-> forallb in_xyz (map snd pairs) = true.
Proof.
  induction pairs as [|[ang ax] rest IH]; intros Rm; simpl.
  - split; eauto.
  - unfold in_xyz at 1. simpl.
    destruct (Ascii.eqb ax "x"); [apply IH|].
    destruct (Ascii.eqb ax "y"); [apply IH|].
    destruct (Ascii.eqb ax "z"); [apply IH|].
    simpl. split; [intros [M H]; discriminate | discriminate].
Qed.

Lemma map_snd_combine_firstn {A B : Type} (l : list A) (l' : list B) :
  map snd (combine l l') = firstn (List.length l) l'.
Proof.
  revert l'. induction l as [|a l IH]; intros [|b l']; simpl; try reflexivity.
  now rewrite IH.
Qed.

(** X12: [R_euler] pairs angles and axes with [zip]: it returns a matrix
    exactly when the axis characters that get an angle are all among x, y,
    z, however many there are; with no angles or an empty axes string it
    returns the identity. *)
Theorem R_euler_returns_iff (euler_angles : list R) (rotation_axes : string) :
  ((exists M, R_euler euler_angles rotation_axes = Return M)
   <-> forallb in_xyz (firstn (List.length euler_angles)
                              (list_ascii_of_string rotation_axes)) = true) /\
  R_euler [] rotation_axes = Return identity3 /\
  R_euler euler_angles "" = Return identity3.
Proof.
  split; [|split].
  - unfold R_euler. rewrite <- map_snd_combine_firstn. apply R_euler_loop_returns.
  - reflexivity.
  - unfold R_euler. simpl. now destruct euler_angles.
Qed.

(** X13: two turns about the same axis compose by adding their angles. *)
Theorem R_axis_add (a b : R) :
  mdot (R_x a) (R_x b) = R_x (a + b) /\
  mdot (R_y a) (R_y b) = R_y (a + b) /\
  mdot (R_z a) (R_z b) = R_z (a + b).
Proof.
  unfold R_x, R_y, R_z, mdot, mcol, mget, linalg.dotproduct. simpl.
  rewrite cos_plus, sin_plus.
  repeat split; f_equal; f_equal; ring.
Qed.

Lemma norm2_quat_axis (ax : ascii) (t : R) : norm2 (axis_quat ax t) = 1.
Proof.
  pose proof (sin_cos_sq (t / 2)) as H.
  unfold axis_quat, quat_x, quat_y, quat_z, quat_axis, norm2.
  destruct (Ascii.eqb ax "x"); [simpl; nra|].
  destruct (Ascii.eqb ax "y"); simpl; nra.
Qed.

Lemma rotmx_axis_quat (ax : ascii) (t : R) :
  rotmx_from_quat (axis_quat ax t) = axis_matrix ax t.
Proof.
  unfold axis_quat, axis_matrix.
  destruct (Ascii.eqb ax "x"); [apply rotmx_quat_x|].
  destruct (Ascii.eqb ax "y"); [apply rotmx_quat_y | apply rotmx_quat_z].
Qed.

Lemma R_euler_loop_step (Rm : mat3) (ang : R) (ax : ascii)
    (rest : list (R * ascii)) :
  in_xyz ax = true ->
  R_euler_loop Rm ((ang, ax) :: rest)
  = R_euler_loop (mdot Rm (axis_matrix ax ang)) rest.
Proof.
  unfold in_xyz, axis_matrix. simpl.
  destruct (Ascii.eqb ax "x"); [reflexivity|].
  destruct (Ascii.eqb ax "y"); [reflexivity|].
  destruct (Ascii.eqb ax "z"); [reflexivity | discriminate].
Qed.

Lemma R_euler_3 (e0 e1 e2 : R) (c1 c2 c3 : ascii) :
  in_xyz c1 = true -> in_xyz c2 = true -> in_xyz c3 = true ->
  R_euler [e0; e1; e2] (String c1 (String c2 (String c3 EmptyString)))
  = Return (rotmx_from_quat
              (quat_mult (quat_mult (axis_quat c1 e0) (axis_quat c2 e1))
                         (axis_quat c3 e2))).
Proof.
  intros H1 H2 H3.
  rewrite !rotmx_mult;
    try apply norm2_quat_axis;
    try (rewrite norm2_mult, !norm2_quat_axis; ring).
  rewrite !rotmx_axis_quat.
  unfold R_euler.
  change (combine [e0; e1; e2]
            (list_ascii_of_string (String c1 (String c2 (String c3 EmptyString)))))
    with [(e0, c1); (e1, c2); (e2, c3)].
  rewrite !R_euler_loop_step by assumption.
  rewrite mdot_identity3_l. reflexivity.
Qed.

(** X14: for every valid axes string the matrix [R_euler] builds from three
    angles is the matrix of the product of the three axis quaternions
    ([quat_x], [quat_y] or [quat_z] of each angle, in sequence order). *)
Theorem R_euler_is_quat_product (e0 e1 e2 : R) (rotation_axes : string)
    (c1 c2 c3 : ascii) :
  valid_axes rotation_axes = true ->
  String.get 0 rotation_axes = Some c1 ->
  String.get 1 rotation_axes = Some c2 ->
  String.get 2 rotation_axes = Some c3 ->
  R_euler [e0; e1; e2] rotation_axes
  = Return (rotmx_from_quat
              (quat_mult (quat_mult (axis_quat c1 e0) (axis_quat c2 e1))
                         (axis_quat c3 e2))).
Proof.
  intros Hv G1 G2 G3.
  destruct (valid_axes_inv _ Hv) as (d1 & d2 & d3 & -> & H1 & H2 & H3).
  simpl in G1, G2, G3.
  injection G1 as <-. injection G2 as <-. injection G3 as <-.
  now apply R_euler_3.
Qed.

Lemma R_euler_is_quat_product_witness :
  R_euler [1; 2; 3] "zxz"
  = Return (rotmx_from_quat
              (quat_mult (quat_mult (axis_quat "z" 1) (axis_quat "x" 2))
                         (axis_quat "z" 3))).
Proof.
  apply (R_euler_is_quat_product 1 2 3 "zxz" "z" "x" "z"); reflexivity.
Defined.

(** ** Quaternion of a matrix, and [invert] *)

Lemma quat_from_rotmx_pos (q : quat) :
  norm2 q = 1 -> 0 < q_w q ->
  quat_from_rotmx (rotmx_from_quat q) = q.
Proof.
  destruct q as [w x y z]. intros H Hw. unfold norm2 in H. simpl in H, Hw.
  rewrite (quat_from_rotmx_of_quat w x y z H).
  rewrite !(copysign_abs_pos w) by exact Hw.
  rewrite (Rabs_pos_eq w) by lra. reflexivity.
Qed.

Lemma quat_from_rotmx_neg (q : quat) :
  norm2 q = 1 -> q_w q < 0 ->
  quat_from_rotmx (rotmx_from_quat q) = qopp q.
Proof.
  destruct q as [w x y z]. intros H Hw. unfold norm2 in H. simpl in H, Hw.
  rewrite (quat_from_rotmx_of_quat w x y z H).
  rewrite !(copysign_abs_neg w) by exact Hw.
  rewrite (Rabs_left w Hw). reflexivity.
Qed.

Lemma quat_from_rotmx_w_nonneg (M : mat3) : 0 <= q_w (quat_from_rotmx M).
Proof.
  unfold quat_from_rotmx. simpl. unfold Rdiv.
  apply Rmult_le_pos; [apply sqrt_pos | lra].
Qed.

(** X15: for a unit quaternion with positive w, [quat_from_rotmx] recovers
    it exactly from its matrix; with negative w it recovers the opposite
    quaternion; and whatever the matrix, the w it returns is never
    negative. *)
Theorem quat_from_rotmx_inverts_rotmx (q : quat) (M : mat3) :
  linalg.length q = 1 ->
  (0 < q_w q -> quat_from_rotmx (rotmx_from_quat q) = q) /\
  (q_w q < 0 -> quat_from_rotmx (rotmx_from_quat q) = qopp q) /\
  0 <= q_w (quat_from_rotmx M).
Proof.
  intros H. apply norm2_unit in H. split; [|split].
  - now apply quat_from_rotmx_pos.
  - now apply quat_from_rotmx_neg.
  - apply quat_from_rotmx_w_nonneg.
Qed.

Lemma quat_from_rotmx_inverts_rotmx_witness :
  (0 < q_w (Quat (3/5) 0 (4/5) 0) ->
   quat_from_rotmx (rotmx_from_quat (Quat (3/5) 0 (4/5) 0)) = Quat (3/5) 0 (4/5) 0) /\
  (q_w (Quat (3/5) 0 (4/5) 0) < 0 ->
   quat_from_rotmx (rotmx_from_quat (Quat (3/5) 0 (4/5) 0))
   = qopp (Quat (3/5) 0 (4/5) 0)) /\
  0 <= q_w (quat_from_rotmx identity3).
Proof.
  apply (quat_from_rotmx_inverts_rotmx (Quat (3/5) 0 (4/5) 0) identity3).
  apply length_3_4.
Defined.

Lemma invert_of_quat (q : quat) :
  norm2 q = 1 -> q_w q <> 0 ->
  invert {| rotation_matrix := rotmx_from_quat q |}
  = Return {| rotation_matrix := mtranspose (rotmx_from_quat q) |}.
Proof.
  intros H Hw. unfold invert, get_as_quaternion. cbn [rotation_matrix].
  destruct (Rlt_dec (q_w q) 0) as [Hneg | Hpos].
  - rewrite (quat_from_rotmx_neg q H Hneg).
    rewrite <- rotmx_conj, <- (rotmx_from_quat_opp (quat_conj q)).
    destruct q. reflexivity.
  - rewrite (quat_from_rotmx_pos q H) by lra.
    rewrite <- rotmx_conj. destruct q. reflexivity.
Qed.

Lemma norm2_conj (q : quat) : norm2 (quat_conj q) = norm2 q.
Proof. destruct q. unfold norm2, quat_conj. simpl. ring. Qed.

Lemma quat_conj_invol (q : quat) : quat_conj (quat_conj q) = q.
Proof. destruct q. unfold quat_conj. simpl. f_equal; ring. Qed.

(** X16: for the rotation of a unit quaternion with w <> 0, [invert] returns
    the rotation with the transposed matrix, which is the inverse matrix,
    and inverting twice gives the rotation back. *)
Theorem invert_transposes (q : quat) :
  linalg.length q = 1 -> q_w q <> 0 ->
  invert {| rotation_matrix := rotmx_from_quat q |}
  = Return {| rotation_matrix := mtranspose (rotmx_from_quat q) |} /\
  mdot (mtranspose (rotmx_from_quat q)) (rotmx_from_quat q) = identity3 /\
  (r <- invert {| rotation_matrix := rotmx_from_quat q |} ;; invert r)
  = Return {| rotation_matrix := rotmx_from_quat q |}.
Proof.
  intros H Hw. apply norm2_unit in H.
  pose proof (invert_of_quat q H Hw) as E.
  split; [exact E|]. split; [apply (rotmx_orthogonal q H)|].
  rewrite E. cbn [bind]. rewrite <- rotmx_conj.
  rewrite invert_of_quat.
  - now rewrite <- rotmx_conj, quat_conj_invol.
  - now rewrite norm2_conj.
  - destruct q. exact Hw.
Qed.

Lemma invert_transposes_witness :
  invert {| rotation_matrix := rotmx_from_quat (Quat (3/5) 0 (4/5) 0) |}
  = Return {| rotation_matrix := mtranspose (rotmx_from_quat (Quat (3/5) 0 (4/5) 0)) |} /\
  mdot (mtranspose (rotmx_from_quat (Quat (3/5) 0 (4/5) 0)))
       (rotmx_from_quat (Quat (3/5) 0 (4/5) 0)) = identity3 /\
  (r <- invert {| rotation_matrix := rotmx_from_quat (Quat (3/5) 0 (4/5) 0) |} ;;
   invert r)
  = Return {| rotation_matrix := rotmx_from_quat (Quat (3/5) 0 (4/5) 0) |}.
Proof.
  apply (invert_transposes (Quat (3/5) 0 (4/5) 0)).
  - apply length_3_4.
  - simpl. lra.
Defined.

(** ** Rotating vectors *)

Lemma flat_length (vs : list vec3) :
  List.length (flat_map list_of_vec3 vs) = (List.length vs * 3)%nat.
Proof. induction vs as [|v vs IH]; simpl; [reflexivity | now rewrite IH]. Qed.

Lemma map_slices {A : Type} (g : vec3 -> A) (vs : list vec3) :
  map (fun i => g (vec3_of_list (slice3 (flat_map list_of_vec3 vs) i)))
      (seq 0 (List.length vs))
  = map g vs.
Proof.
  induction vs as [|[a b c] vs IH]; [reflexivity|].
  simpl List.length. rewrite <- cons_seq, <- seq_shift, map_cons, map_map.
  rewrite (map_cons g). f_equal. rewrite <- IH. apply map_ext.
  intros i. reflexivity.
Qed.

Lemma rotate_vectors_flat (self : Rotation) (vs : list vec3) (sh : list nat) :
  sh = [List.length vs * 3]%nat \/ sh = [List.length vs; 3%nat] ->
  rotate_vectors self (Array sh (flat_map list_of_vec3 vs)) "xyz"
  = Return (map (mvdot (rotation_matrix self)) vs) /\
  rotate_vectors self (Array sh (flat_map list_of_vec3 vs)) "zyx"
  = Return (map (fun v => vrev (mvdot (rotation_matrix self) (vrev v))) vs).
Proof.
  intros Hsh. unfold rotate_vectors, ndim, size. cbn [shape ravel].
  rewrite flat_length, Nat.div_mul, Nat.Div0.mod_mul by discriminate.
  destruct Hsh as [-> | ->]; cbn [List.length last Nat.eqb negb andb];
    rewrite ?Nat.eqb_refl; cbn [negb andb String.eqb Ascii.eqb Bool.eqb];
    split; apply f_equal;
      [ apply (map_slices (mvdot (rotation_matrix self)))
      | apply (map_slices (fun v => vrev (mvdot (rotation_matrix self) (vrev v))))
      | apply (map_slices (mvdot (rotation_matrix self)))
      | apply (map_slices (fun v => vrev (mvdot (rotation_matrix self) (vrev v)))) ].
Qed.

(** X17: given k vectors as a flat array of 3k numbers or as a k x 3 array,
    [rotate_vectors] returns k vectors: with order "xyz" the i-th is the
    matrix times the i-th input, with order "zyx" it is the reverse of the
    matrix times the reversed i-th input. *)
Theorem rotate_vectors_each (self : Rotation) (vs : list vec3) (sh : list nat) :
  sh = [List.length vs * 3]%nat \/ sh = [List.length vs; 3%nat] ->
  exists out_xyz out_zyx,
    rotate_vectors self (Array sh (flat_map list_of_vec3 vs)) "xyz" = Return out_xyz /\
    rotate_vectors self (Array sh (flat_map list_of_vec3 vs)) "zyx" = Return out_zyx /\
    List.length out_xyz = List.length vs /\
    List.length out_zyx = List.length vs /\
    (forall i v, nth_error vs i = Some v ->
       nth_error out_xyz i = Some (mvdot (rotation_matrix self) v) /\
       nth_error out_zyx i = Some (vrev (mvdot (rotation_matrix self) (vrev v)))).
Proof.
  intros Hsh. destruct (rotate_vectors_flat self vs sh Hsh) as [E1 E2].
  do 2 eexists. split; [exact E1|]. split; [exact E2|].
  rewrite !length_map. repeat split.
  - now apply map_nth_error.
  - now apply (map_nth_error (fun v => vrev (mvdot (rotation_matrix self) (vrev v)))).
Qed.

Lemma rotate_vectors_each_witness :
  exists out_xyz out_zyx,
    rotate_vectors {| rotation_matrix := quarter_turn_z |}
      (Array [2; 3]%nat (flat_map list_of_vec3 [V3 1 0 0; V3 0 1 0])) "xyz"
    = Return out_xyz /\
    rotate_vectors {| rotation_matrix := quarter_turn_z |}
      (Array [2; 3]%nat (flat_map list_of_vec3 [V3 1 0 0; V3 0 1 0])) "zyx"
    = Return out_zyx /\
    List.length out_xyz = List.length [V3 1 0 0; V3 0 1 0] /\
    List.length out_zyx = List.length [V3 1 0 0; V3 0 1 0] /\
    (forall i v, nth_error [V3 1 0 0; V3 0 1 0] i = Some v ->
       nth_error out_xyz i = Some (mvdot quarter_turn_z v) /\
       nth_error out_zyx i = Some (vrev (mvdot quarter_turn_z (vrev v)))).
Proof.
  apply (rotate_vectors_each {| rotation_matrix := quarter_turn_z |}
           [V3 1 0 0; V3 0 1 0] [2; 3]%nat).
  right. reflexivity.
Defined.

Lemma string_eqb_cases (order : string) :
  (String.eqb order "xyz" = true /\ order = "xyz"%string) \/
  (String.eqb order "xyz" = false /\ String.eqb order "zyx" = true /\
   order = "zyx"%string) \/
  (String.eqb order "xyz" = false /\ String.eqb order "zyx" = false /\
   order <> "xyz"%string /\ order <> "zyx"%string).
Proof.
  destruct (String.eqb_spec order "xyz") as [-> | N1]; [auto|].
  destruct (String.eqb_spec order "zyx") as [-> | N2]; auto 6.
Qed.

(** X18: [rotate_vector] returns a vector exactly when the array has one
    dimension and three elements and the order is "xyz" or "zyx" (every
    other call raises), and with order "xyz" the vector returned is the
    matrix times the input. *)
Theorem rotate_vector_returns_iff (self : Rotation) (vector : ndarray)
    (order : string) :
  ((exists v, rotate_vector self vector order = Return v)
   <-> size vector = 3%nat /\ ndim vector = 1%nat /\
       (order = "xyz"%string \/ order = "zyx"%string)) /\
  (size vector = 3%nat -> ndim vector = 1%nat ->
   rotate_vector self vector "xyz"
   = Return (mvdot (rotation_matrix self) (vec3_of_list (ravel vector)))).
Proof.
  unfold rotate_vector.
  destruct (Nat.eqb_spec (size vector) 3) as [Hs | Hs];
    destruct (Nat.eqb_spec (ndim vector) 1) as [Hd | Hd]; cbn [negb orb];
    try (split; [split; [intros [v H]; discriminate | intros (A & B & _); contradiction]
                | intros; contradiction]).
  destruct (string_eqb_cases order) as [[-> ->] | [(-> & -> & ->) | (-> & -> & N1 & N2)]].
  - split; [split; [auto | intros _; eexists; reflexivity] | reflexivity].
  - split; [split; [auto | intros _; eexists; reflexivity] | reflexivity].
  - split; [split; [intros [v H]; discriminate | intros (_ & _ & [A | A]); contradiction]
           | reflexivity].
Qed.

(** ** is_similar *)

Lemma sum_sq_nonneg (d : quat) : 0 <= sum_sq d.
Proof. unfold sum_sq. nra. Qed.

(** X19: [is_similar] is symmetric in the two rotations, holds between a
    rotation and itself for every positive tolerance, and never holds for a
    tolerance that is zero or negative. *)
Theorem is_similar_symmetric (a b : Rotation) (tol : R) :
  is_similar a b tol = is_similar b a tol /\
  (0 < tol -> is_similar a a tol = true) /\
  (tol <= 0 -> is_similar a b tol = false).
Proof.
  split; [|split].
  - unfold is_similar.
    replace (sum_sq (qsub (get_as_quaternion b true) (get_as_quaternion a true)))
      with (sum_sq (qsub (get_as_quaternion a true) (get_as_quaternion b true)))
      by (unfold sum_sq, qsub; simpl; ring).
    reflexivity.
  - apply is_similar_refl.
  - intros Htol. unfold is_similar, Rltb.
    pose proof (sqrt_pos (sum_sq (qsub (get_as_quaternion a true)
                                       (get_as_quaternion b true)))).
    case_dec; [lra | reflexivity].
Qed.

(** ** set_with_rotation_matrix *)

Lemma gram_diag (M : mat3) (i : nat) :
  mget (mdot M (mtranspose M)) i i = linalg.dotproduct (mrow M i) (mrow M i).
Proof.
  destruct M as [[? ? ?] [? ? ?] [? ? ?]].
  destruct i as [|[|i]]; unfold mdot, mtranspose, mcol, mget, linalg.dotproduct;
    simpl; ring.
Qed.

Lemma set_with_rotation_matrix_cases (self : Rotation) (M : mat3) :
  (row_unit M 0 /\ row_unit M 1 /\ row_unit M 2 /\
   set_with_rotation_matrix self M = Return {| rotation_matrix := M |}) \/
  (~ (row_unit M 0 /\ row_unit M 1 /\ row_unit M 2) /\
   set_with_rotation_matrix self M = Raise (Exception not_unitary_message)).
Proof.
  unfold set_with_rotation_matrix, row_unit. cbn [seq unitary_loop].
  rewrite !gram_diag.
  repeat (case_dec; [right; split; [lra | reflexivity]|]).
  left. cbn [bind]. repeat split; try lra.
Qed.

(** X20: [set_with_rotation_matrix] stores the given 3x3 matrix exactly when
    each of its three rows has squared norm within 1e-4 of 1, and raises
    otherwise; rows are never compared with one another.  Every orthogonal
    matrix is stored. *)
Theorem set_with_rotation_matrix_rows (self : Rotation) (M : mat3) :
  (set_with_rotation_matrix self M = Return {| rotation_matrix := M |}
   <-> row_unit M 0 /\ row_unit M 1 /\ row_unit M 2) /\
  (~ (row_unit M 0 /\ row_unit M 1 /\ row_unit M 2)
   -> set_with_rotation_matrix self M = Raise (Exception not_unitary_message)) /\
  (orthogonal M ->
   set_with_rotation_matrix self M = Return {| rotation_matrix := M |}).
Proof.
  assert (A : set_with_rotation_matrix self M = Return {| rotation_matrix := M |}
              <-> row_unit M 0 /\ row_unit M 1 /\ row_unit M 2).
  { destruct (set_with_rotation_matrix_cases self M) as [(H0 & H1 & H2 & E) | [N E]].
    - rewrite E. tauto.
    - rewrite E. split; [discriminate | intros H; contradiction]. }
  split; [exact A|]. split.
  - intros N.
    destruct (set_with_rotation_matrix_cases self M) as [(H0 & H1 & H2 & E) | [_ E]];
      [tauto | exact E].
  - intros [O _]. apply A.
    assert (D : forall i, (i < 3)%nat -> row_unit M i).
    { intros i Hi. unfold row_unit. rewrite <- gram_diag, O.
      unfold unitary_tol.
      destruct i as [|[|[|i]]]; try lia; simpl;
        replace (1 - 1) with 0 by ring; rewrite Rabs_R0; lra. }
    repeat split; apply D; lia.
Qed.

(** ** Random rotations *)

Lemma rand_quat_norm2 (x0 x1 x2 : R) :
  0 <= x0 <= 1 -> norm2 (rand_quat (x0, x1, x2)) = 1.
Proof. intros H. apply norm2_unit. now apply rand_quat_unit. Qed.

Lemma axis_formalisms_not_random :
  ~ In "random"%string ["random_x"; "random_y"; "random_z"]%string.
Proof. simpl. intros [H | [H | [H | []]]]; discriminate. Qed.

(** X21: when the generator's numbers lie in [0,1), a random formalism
    ("random", "random_x", "random_y", "random_z") replaces the matrix by an
    orthogonal one and uses up three numbers for "random" and one for the
    others; any other formalism string leaves the rotation and the generator
    untouched. *)
Theorem set_as_random_formalism_orthogonal (self : Rotation) (formalism : string)
    (g : rng) :
  (forall n, 0 <= stream g n < 1) ->
  (In formalism random_formalisms ->
   orthogonal (rotation_matrix (fst (set_as_random_formalism self formalism g))) /\
   stream (snd (set_as_random_formalism self formalism g)) = stream g /\
   cursor (snd (set_as_random_formalism self formalism g))
   = (cursor g + (if String.eqb formalism "random" then 3 else 1))%nat) /\
  (~ In formalism random_formalisms ->
   set_as_random_formalism self formalism g = (self, g)).
Proof.
  intros Hg. unfold set_as_random_formalism, random_formalisms.
  destruct (String.eqb_spec formalism "random") as [-> | N0].
  { split; [intros _ | intros N; exfalso; apply N; simpl; auto].
    unfold set_as_random, random3, rand. cbn [fst snd rotation_matrix stream cursor].
    split; [|split; [reflexivity | lia]].
    apply rotmx_orthogonal, rand_quat_norm2.
    specialize (Hg (cursor g)). lra. }
  destruct (String.eqb_spec formalism "random_x") as [-> | N1].
  { split; [intros _ | intros N; exfalso; apply N; simpl; auto].
    unfold set_as_random_x, rand. cbn [fst snd rotation_matrix stream cursor].
    split; [apply orthogonal_R_x | split; [reflexivity | lia]]. }
  destruct (String.eqb_spec formalism "random_y") as [-> | N2].
  { split; [intros _ | intros N; exfalso; apply N; simpl; auto].
    unfold set_as_random_y, rand. cbn [fst snd rotation_matrix stream cursor].
    split; [apply orthogonal_R_y | split; [reflexivity | lia]]. }
  destruct (String.eqb_spec formalism "random_z") as [-> | N3].
  { split; [intros _ | intros N; exfalso; apply N; simpl; auto 6].
    unfold set_as_random_z, rand. cbn [fst snd rotation_matrix stream cursor].
    split; [apply orthogonal_R_z | split; [reflexivity | lia]]. }
  split; [|reflexivity].
  simpl. intros [H | [H | [H | [H | []]]]]; congruence.
Qed.

Lemma set_as_random_formalism_orthogonal_witness :
  (In "random_x"%string random_formalisms ->
   orthogonal (rotation_matrix
     (fst (set_as_random_formalism identity_rotation "random_x"
             (constant_rng (1 / 2)%R)))) /\
   stream (snd (set_as_random_formalism identity_rotation "random_x"
                  (constant_rng (1 / 2)%R)))
   = stream (constant_rng (1 / 2)%R) /\
   cursor (snd (set_as_random_formalism identity_rotation "random_x"
                  (constant_rng (1 / 2)%R)))
   = (cursor (constant_rng (1 / 2)%R)
      + (if String.eqb "random_x" "random" then 3 else 1))%nat) /\
  (~ In "random_x"%string random_formalisms ->
   set_as_random_formalism identity_rotation "random_x"
     (constant_rng (1 / 2)%R)
   = (identity_rotation, (constant_rng (1 / 2)%R))).
Proof.
  apply (set_as_random_formalism_orthogonal identity_rotation "random_x"
           (constant_rng (1 / 2)%R)).
  intros n. unfold constant_rng. simpl. lra.
Defined.

(** ** Sequences of rotations *)

Lemma get_next_fixed (self : Rotations) (g : rng) :
  is_random_formalism (_formalism self) = false ->
  _rotations self <> [] ->
  get_next_rotation self g
  = inr (nth (_i self mod List.length (_rotations self)) (_rotations self)
             identity_rotation,
         with_cursor self (_i self + 1), g).
Proof.
  intros Hf Hne. unfold get_next_rotation. rewrite Hf.
  unfold get_current_rotation.
  destruct (_rotations self) as [|r rs] eqn:E; [contradiction|].
  cbn [List.length].
  assert (L : (_i self mod S (List.length rs) < List.length (r :: rs))%nat).
  { cbn [List.length]. apply Nat.mod_upper_bound. discriminate. }
  destruct (nth_error (r :: rs) (_i self mod S (List.length rs))) as [x|] eqn:N.
  - apply (nth_error_nth _ _ identity_rotation) in N. rewrite N.
    unfold with_cursor. rewrite E. reflexivity.
  - apply nth_error_None in N. lia.
Qed.

Lemma next_rotations_fixed (k : nat) :
  forall (self : Rotations) (g : rng),
    is_random_formalism (_formalism self) = false ->
    _rotations self <> [] ->
    next_rotations k self g
    = inr (map (fun j => nth ((_i self + j) mod List.length (_rotations self))
                             (_rotations self) identity_rotation)
               (seq 0 k),
           with_cursor self (_i self + k), g).
Proof.
  induction k as [|k IH]; intros self g Hf Hne.
  - simpl. unfold with_cursor. rewrite Nat.add_0_r. now destruct self.
  - cbn [next_rotations]. rewrite (get_next_fixed self g Hf Hne).
    rewrite IH by assumption.
    cbn [with_cursor _rotations _i _formalism _values].
    rewrite <- cons_seq, <- seq_shift, map_cons, map_map.
    rewrite Nat.add_0_r. unfold with_cursor. cbn [_rotations _i _formalism _values].
    replace (_i self + 1 + k)%nat with (_i self + S k)%nat by lia.
    do 4 f_equal. apply map_ext. intros j.
    now replace (_i self + 1 + j)%nat with (_i self + S j)%nat by lia.
Qed.

(** X22: for a sequence with a fixed (non-random) formalism and n >= 1
    rotations, k calls of [get_next_rotation] from cursor i return the
    rotations at positions i, i+1, ..., i+k-1 modulo n, move the cursor to
    i+k, and leave the list and the random generator unchanged; so call
    number n+1 returns the same rotation as the first call. *)
Theorem get_next_rotation_cycles (k : nat) (self : Rotations) (g : rng) :
  is_random_formalism (_formalism self) = false ->
  _rotations self <> [] ->
  next_rotations k self g
  = inr (map (fun j => nth ((_i self + j) mod List.length (_rotations self))
                           (_rotations self) identity_rotation)
             (seq 0 k),
         with_cursor self (_i self + k), g) /\
  nth ((_i self + List.length (_rotations self)) mod List.length (_rotations self))
      (_rotations self) identity_rotation
  = nth (_i self mod List.length (_rotations self)) (_rotations self)
        identity_rotation.
Proof.
  intros Hf Hne. split; [now apply next_rotations_fixed|].
  f_equal.
  rewrite <- (Nat.mul_1_l (List.length (_rotations self))) at 1.
  apply Nat.Div0.mod_add.
Qed.

Lemma get_next_rotation_cycles_witness :
  next_rotations 4
    {| _formalism := Some "quaternion"%string; _i := 0; _values := None;
       _rotations := [ {| rotation_matrix := R_x 1 |};
                       {| rotation_matrix := R_y 1 |};
                       {| rotation_matrix := R_z 1 |} ] |}
    (constant_rng 0%R)
  = inr ([ {| rotation_matrix := R_x 1 |}; {| rotation_matrix := R_y 1 |};
           {| rotation_matrix := R_z 1 |}; {| rotation_matrix := R_x 1 |} ],
         {| _formalism := Some "quaternion"%string; _i := 4; _values := None;
            _rotations := [ {| rotation_matrix := R_x 1 |};
                            {| rotation_matrix := R_y 1 |};
                            {| rotation_matrix := R_z 1 |} ] |},
         (constant_rng 0%R)).
Proof.
  pose proof (get_next_rotation_cycles 4
    {| _formalism := Some "quaternion"%string; _i := 0; _values := None;
       _rotations := [ {| rotation_matrix := R_x 1 |};
                       {| rotation_matrix := R_y 1 |};
                       {| rotation_matrix := R_z 1 |} ] |}
    (constant_rng 0%R)) as H.
  destruct H as [H _]; [reflexivity | discriminate |].
  exact H.
Defined.

Lemma is_random_formalism_In (f : string) :
  In f random_formalisms -> is_random_formalism (Some f) = true.
Proof.
  intros H. unfold is_random_formalism. apply existsb_exists.
  exists f. split; [exact H | apply String.eqb_refl].
Qed.

Lemma get_next_random (self : Rotations) (g : rng) (f : string) (r0 : Rotation) :
  _formalism self = Some f -> In f random_formalisms -> _rotations self = [r0] ->
  get_next_rotation self g
  = inr (fst (set_as_random_formalism r0 f g),
         {| _formalism := Some f; _i := _i self + 1; _values := _values self;
            _rotations := [fst (set_as_random_formalism r0 f g)] |},
         snd (set_as_random_formalism r0 f g)).
Proof.
  intros Hf Hin Hr. unfold get_next_rotation.
  rewrite Hf, Hr, (is_random_formalism_In f Hin).
  destruct (set_as_random_formalism r0 f g) as [r' g'].
  unfold get_current_rotation. cbn [_rotations List.length _i fst snd].
  rewrite Nat.mod_1_r. reflexivity.
Qed.

Lemma next_rotations_random (k : nat) :
  forall (self : Rotations) (g : rng) (f : string) (r0 : Rotation),
    _formalism self = Some f -> In f random_formalisms -> _rotations self = [r0] ->
    (forall n, 0 <= stream g n < 1) ->
    exists rs self' g',
      next_rotations k self g = inr (rs, self', g') /\
      List.length rs = k /\
      Forall (fun r => orthogonal (rotation_matrix r)) rs /\
      _i self' = (_i self + k)%nat /\
      cursor g' = (cursor g + k * (if String.eqb f "random" then 3 else 1))%nat.
Proof.
  induction k as [|k IH]; intros self g f r0 Hf Hin Hr Hg.
  - exists [], self, g. repeat split; auto; cbn; lia.
  - cbn [next_rotations]. rewrite (get_next_random self g f r0 Hf Hin Hr).
    destruct (set_as_random_formalism_orthogonal r0 f g Hg) as [Ho _].
    destruct (Ho Hin) as (O & S & C).
    set (r1 := fst (set_as_random_formalism r0 f g)) in *.
    set (g1 := snd (set_as_random_formalism r0 f g)) in *.
    destruct (IH {| _formalism := Some f; _i := _i self + 1;
                    _values := _values self; _rotations := [r1] |} g1 f r1)
      as (rs & self' & g' & E & L & F & I & Cg); try reflexivity; try assumption.
    { intros n. rewrite S. apply Hg. }
    rewrite E. exists (r1 :: rs), self', g'.
    split; [reflexivity|]. split; [simpl; now rewrite L|].
    split; [now constructor|]. cbn [_i] in I. split; lia.
Qed.

(** X23: for a sequence with a random formalism holding one rotation, as its
    constructor builds it, and a generator whose numbers lie in [0,1), k
    calls of [get_next_rotation] return k rotations that are all orthogonal,
    move the cursor by k, and use up 3k numbers for "random" and k for the
    single-axis formalisms. *)
Theorem random_sequence_orthogonal (k : nat) (self : Rotations) (g : rng)
    (f : string) (r0 : Rotation) :
  _formalism self = Some f -> In f random_formalisms -> _rotations self = [r0] ->
  (forall n, 0 <= stream g n < 1) ->
  exists rs self' g',
    next_rotations k self g = inr (rs, self', g') /\
    List.length rs = k /\
    Forall (fun r => orthogonal (rotation_matrix r)) rs /\
    _i self' = (_i self + k)%nat /\
    cursor g' = (cursor g + k * (if String.eqb f "random" then 3 else 1))%nat.
Proof. apply next_rotations_random. Qed.

Lemma random_sequence_orthogonal_witness :
  exists rs self' g',
    next_rotations 2
      {| _formalism := Some "random"%string; _i := 0; _values := None;
         _rotations := [identity_rotation] |}
      (constant_rng (1 / 2)%R)
    = inr (rs, self', g') /\
    List.length rs = 2%nat /\
    Forall (fun r => orthogonal (rotation_matrix r)) rs /\
    _i self' = (0 + 2)%nat /\
    cursor g' = (0 + 2 * (if String.eqb "random" "random" then 3 else 1))%nat.
Proof.
  apply (random_sequence_orthogonal 2
           {| _formalism := Some "random"%string; _i := 0; _values := None;
              _rotations := [identity_rotation] |}
           (constant_rng (1 / 2)%R) "random" identity_rotation).
  - reflexivity.
  - simpl. auto.
  - reflexivity.
  - intros n. unfold constant_rng. simpl. lra.
Defined.

(** ** Normalising Euler angles *)

Lemma pymod_range (x m : R) : 0 < m -> 0 <= pymod x m < m.
Proof.
  intros Hm. unfold pymod.
  pose proof (Zfloor_bound (x / m)) as [L U].
  set (k := IZR (Zfloor (x / m))) in *.
  assert (E : x = m * (x / m)) by (field; lra).
  set (y := x / m) in *. rewrite E. split; nra.
Qed.

Lemma pymod_small (x m : R) : 0 <= x < m -> pymod x m = x.
Proof.
  intros [L U]. unfold pymod.
  assert (Hm : 0 < m) by lra.
  rewrite (Zfloor_eq 0 (x / m)); [simpl; ring|].
  simpl. split.
  - apply Rmult_le_pos; [lra|]. left. now apply Rinv_0_lt_compat.
  - apply (Rmult_lt_reg_r m); [exact Hm|].
    replace (x / m * m) with x by (field; lra). lra.
Qed.

Lemma Zfloor_add (y : R) (k : Z) : Zfloor (y + IZR k) = (Zfloor y + k)%Z.
Proof.
  apply Zfloor_eq. rewrite plus_IZR.
  pose proof (Zfloor_bound y). lra.
Qed.

Lemma pymod_shift (x m : R) (k : Z) :
  0 < m -> pymod (x + IZR k * m) m = pymod x m.
Proof.
  intros Hm. unfold pymod.
  replace ((x + IZR k * m) / m) with (x / m + IZR k) by (field; lra).
  rewrite Zfloor_add, plus_IZR. ring.
Qed.

Lemma two_PI_pos : 0 < 2 * PI.
Proof. pose proof PI_RGT_0. lra. Qed.

(** X24: [norm_euler_repax] always returns angles with the first and third in
    [0, 2 pi) and the second in [0, pi]. *)
Theorem norm_euler_repax_range (euler : vec3) :
  0 <= v_0 (norm_euler_repax euler) < 2 * PI /\
  0 <= v_1 (norm_euler_repax euler) <= PI /\
  0 <= v_2 (norm_euler_repax euler) < 2 * PI.
Proof.
  pose proof two_PI_pos as T. pose proof PI_RGT_0 as P.
  pose proof (pymod_range (v_0 euler) (2 * PI) T) as H0.
  pose proof (pymod_range (v_1 euler) (2 * PI) T) as H1.
  pose proof (pymod_range (v_2 euler) (2 * PI) T) as H2.
  pose proof (pymod_range (pymod (v_0 euler) (2 * PI) + PI) (2 * PI) T) as K0.
  pose proof (pymod_range (pymod (v_2 euler) (2 * PI) + PI) (2 * PI) T) as K2.
  unfold norm_euler_repax. cbn [vget vset v_0 v_1 v_2].
  destruct (Rge_dec (pymod (v_1 euler) (2 * PI)) PI) as [G | G];
    cbn [vget vset v_0 v_1 v_2]; case_dec; cbn [vget vset v_0 v_1 v_2]; lra.
Qed.

(** X25: [norm_euler_repax] does not see shifts of the three angles by whole
    turns: adding any integer multiples of 2 pi to them gives the same
    result. *)
Theorem norm_euler_repax_periodic (euler : vec3) (k0 k1 k2 : Z) :
  norm_euler_repax (V3 (v_0 euler + IZR k0 * (2 * PI))
                       (v_1 euler + IZR k1 * (2 * PI))
                       (v_2 euler + IZR k2 * (2 * PI)))
  = norm_euler_repax euler.
Proof.
  unfold norm_euler_repax. cbn [v_0 v_1 v_2].
  now rewrite !pymod_shift by apply two_PI_pos.
Qed.

(** X26: angles already in range, with the second below pi and the sum of
    the first and third not within the float resolution of 2 pi, are
    returned unchanged. *)
Theorem norm_euler_repax_fixed (euler : vec3) :
  0 <= v_0 euler < 2 * PI -> 0 <= v_1 euler < PI -> 0 <= v_2 euler < 2 * PI ->
  resolution <= Rabs (v_0 euler + v_2 euler - 2 * PI) ->
  norm_euler_repax euler = euler.
Proof.
  intros H0 H1 H2 Hres. pose proof PI_RGT_0 as P.
  unfold norm_euler_repax.
  rewrite !pymod_small by lra.
  cbn [vget vset v_0 v_1 v_2].
  destruct (Rge_dec (v_1 euler) PI) as [G | G]; [lra|].
  cbn [vget vset v_0 v_1 v_2]. case_dec; [lra|]. now destruct euler.
Qed.

Lemma norm_euler_repax_fixed_witness : norm_euler_repax (V3 0 0 0) = V3 0 0 0.
Proof.
  pose proof PI_RGT_0 as P. pose proof PI2_1 as P1.
  apply (norm_euler_repax_fixed (V3 0 0 0)); simpl; try lra.
  replace (0 + 0 - 2 * PI) with (- (2 * PI)) by ring.
  rewrite Rabs_Ropp, Rabs_pos_eq by lra.
  unfold resolution.
  assert (1 / 10 ^ 15 <= 1).
  { apply (Rmult_le_reg_r (10 ^ 15)); [apply pow_lt; lra|].
    replace (1 / 10 ^ 15 * 10 ^ 15) with 1 by (field; apply pow_nonzero; lra).
    rewrite Rmult_1_l. apply pow_R1_Rle. lra. }
  lra.
Defined.

(** ** Euler angles recovered from a quaternion *)

Lemma tan_ratio (r a : R) :
  r <> 0 -> cos a <> 0 -> r * sin a / (r * cos a) = tan a.
Proof. intros Hr Hc. unfold tan. field. split; assumption. Qed.

Lemma arctan2_polar (r a : R) :
  0 < r -> - PI < a <= PI -> arctan2 (r * sin a) (r * cos a) = a.
Proof.
  intros Hr [La Ua]. pose proof PI_RGT_0 as P. unfold arctan2.
  destruct (Rlt_dec a (- (PI / 2))) as [A1 | A1].
  { (* third quadrant *)
    assert (C : cos a < 0).
    { rewrite <- cos_neg. apply cos_lt_0; lra. }
    assert (S : sin a < 0) by (apply sin_lt_0_var; lra).
    repeat case_dec; try nra.
    rewrite tan_ratio by lra.
    assert (T : tan a = tan (a + PI)).
    { unfold tan. rewrite neg_sin, neg_cos. field. lra. }
    rewrite T, atan_tan by lra. ring. }
  destruct (Req_dec_T a (- (PI / 2))) as [A2 | A2].
  { subst a. rewrite cos_neg, sin_neg, cos_PI2, sin_PI2.
    repeat case_dec; nra. }
  destruct (Rlt_dec a (PI / 2)) as [A3 | A3].
  { assert (C : 0 < cos a) by (apply cos_gt_0; lra).
    repeat case_dec; try nra.
    rewrite tan_ratio by lra. apply atan_tan. lra. }
  destruct (Req_dec_T a (PI / 2)) as [A4 | A4].
  { subst a. rewrite cos_PI2, sin_PI2.
    repeat case_dec; nra. }
  (* second quadrant *)
  assert (C : cos a < 0) by (apply cos_lt_0; lra).
  assert (S : 0 <= sin a) by (apply sin_ge_0; lra).
  repeat case_dec; try nra.
  rewrite tan_ratio by lra.
  assert (T : tan a = tan (a - PI)).
  { unfold tan. rewrite sin_minus, cos_minus, sin_PI, cos_PI. field. lra. }
  rewrite T, atan_tan by lra. ring.
Qed.

Lemma sign_sin_acos_cos (c : R) :
  - PI < c < PI -> sign (sin c) * acos (cos c) = c.
Proof.
  intros [L U]. unfold sign.
  destruct (Rlt_dec c 0) as [N | N].
  - assert (S : sin c < 0) by (apply sin_lt_0_var; lra).
    rewrite <- cos_neg, acos_cos by lra.
    repeat case_dec; lra.
  - destruct (Req_dec_T c 0) as [-> | Z].
    + rewrite sin_0. repeat case_dec; lra.
    + assert (S : 0 < sin c) by (apply sin_gt_0; lra).
      rewrite acos_cos by lra. repeat case_dec; lra.
Qed.

Lemma mvdot_mdot (A B : mat3) (v : vec3) :
  mvdot (mdot A B) v = mvdot A (mvdot B v).
Proof.
  destruct A as [[? ? ?] [? ? ?] [? ? ?]], B as [[? ? ?] [? ? ?] [? ? ?]], v.
  unfold mvdot, mdot, mcol, mget, linalg.dotproduct. simpl. f_equal; ring.
Qed.

Lemma mvdot_identity3 (v : vec3) : mvdot identity3 v = v.
Proof.
  destruct v. unfold mvdot, identity3, linalg.dotproduct. simpl. f_equal; ring.
Qed.

Lemma dot_gram (P : mat3) (u v : vec3) :
  linalg.dotproduct (mvdot P u) (mvdot P v)
  = linalg.dotproduct u (mvdot (mdot (mtranspose P) P) v).
Proof.
  destruct P as [[? ? ?] [? ? ?] [? ? ?]], u, v.
  unfold mvdot, mdot, mtranspose, mcol, mget, linalg.dotproduct. simpl. ring.
Qed.

Lemma orthogonal_keeps_dot (P : mat3) (u v : vec3) :
  orthogonal P ->
  linalg.dotproduct (mvdot P u) (mvdot P v) = linalg.dotproduct u v.
Proof.
  intros [_ H]. now rewrite dot_gram, H, mvdot_identity3.
Qed.

Lemma keeps_cross_mdot (A B : mat3) :
  keeps_cross A -> keeps_cross B -> keeps_cross (mdot A B).
Proof.
  intros HA HB u v. now rewrite !mvdot_mdot, HA, HB.
Qed.

Lemma keeps_cross_R_axis (i : nat) (t : R) : keeps_cross (R_axis i t).
Proof.
  pose proof (sin_cos_sq t) as H. intros [u0 u1 u2] [w0 w1 w2].
  destruct i as [|[|i]];
    unfold R_axis, R_x, R_y, R_z, mvdot, linalg.crossproduct, linalg.dotproduct;
    simpl; f_equal; nsatz.
Qed.

Lemma orthogonal_R_axis (i : nat) (t : R) : orthogonal (R_axis i t).
Proof.
  destruct i as [|[|i]];
    [apply orthogonal_R_x | apply orthogonal_R_y | apply orthogonal_R_z].
Qed.

Lemma R_axis_fixes_axis (i : nat) (t : R) :
  (i < 3)%nat -> mvdot (R_axis i t) (unit_vec i) = unit_vec i.
Proof.
  intros Hi. destruct i as [|[|[|i]]]; try lia;
    unfold R_axis, R_x, R_y, R_z, unit_vec, mvdot, linalg.dotproduct; simpl;
    f_equal; ring.
Qed.

Lemma R_axis_next (i : nat) (t : R) :
  (i < 3)%nat ->
  linalg.dotproduct (unit_vec ((i + 1) mod 3))
                    (mvdot (R_axis i t) (unit_vec ((i + 1) mod 3))) = cos t /\
  linalg.dotproduct
    (linalg.crossproduct (unit_vec ((i + 1) mod 3))
                         (mvdot (R_axis i t) (unit_vec ((i + 1) mod 3))))
    (unit_vec i) = sin t.
Proof.
  intros Hi. destruct i as [|[|[|i]]]; try lia;
    unfold R_axis, R_x, R_y, R_z, unit_vec, mvdot, linalg.dotproduct,
      linalg.crossproduct; simpl; split; ring.
Qed.

(** The quaternion [q1] (or [q2]) that [euler_from_quat] builds for an angle
    about the axis of index [i] *)
Lemma axis_qset (i : nat) (t : R) :
  (i < 3)%nat ->
  norm2 (qset (Quat (cos (t / 2)) 0 0 0) (1 + i) (sin (t / 2))) = 1 /\
  rotmx_from_quat (qset (Quat (cos (t / 2)) 0 0 0) (1 + i) (sin (t / 2)))
  = R_axis i t.
Proof.
  intros Hi. pose proof (sin_cos_sq (t / 2)) as H.
  destruct (double_angle t) as [C S].
  destruct i as [|[|[|i]]]; try lia; (split; [unfold norm2; simpl; nra|]);
    unfold R_axis, R_x, R_y, R_z, rotmx_from_quat; simpl; rewrite C, S;
    f_equal; f_equal; ring.
Qed.

Lemma rotate_unit (v : vec3) (q : quat) :
  norm2 q = 1 -> quat_vec_mult q v = mvdot (rotmx_from_quat q) v.
Proof.
  intros H. rewrite (rotmx_hom_unit q H). apply (rotate_quat_hom v q).
Qed.

Lemma v3r_of_product (q : quat) (P : mat3) (i3 : nat) (c : R) :
  (i3 < 3)%nat -> norm2 q = 1 ->
  rotmx_from_quat q = mdot P (R_axis i3 c) ->
  v3r_of q i3 = mvdot P (unit_vec i3).
Proof.
  intros Hi Hq HM. unfold v3r_of, rotate_quat.
  rewrite (rotate_unit _ q Hq), HM, mvdot_mdot.
  fold (unit_vec i3). now rewrite R_axis_fixes_axis.
Qed.

(** Once the first two angles are right, the third one is. *)
Lemma euler_third_angle (q : quat) (i1 i2 i3 : nat) (a b c : R) :
  (i1 < 3)%nat -> (i2 < 3)%nat -> (i3 < 3)%nat ->
  norm2 q = 1 ->
  rotmx_from_quat q = mdot (mdot (R_axis i1 a) (R_axis i2 b)) (R_axis i3 c) ->
  euler_e0_e1 (v3r_of q i3) i1 i2 i3 = (a, b) ->
  - PI < c < PI ->
  euler_from_indices q i1 i2 i3 = V3 a b c.
Proof.
  intros H1 H2 H3 Hq HM He Hc.
  set (P := mdot (R_axis i1 a) (R_axis i2 b)) in *.
  assert (OP : orthogonal P)
    by (apply orthogonal_mdot; apply orthogonal_R_axis).
  assert (KP : keeps_cross P)
    by (apply keeps_cross_mdot; apply keeps_cross_R_axis).
  unfold euler_from_indices. rewrite He. cbv zeta iota beta.
  destruct (axis_qset i1 a H1) as [N1 M1].
  destruct (axis_qset i2 b H2) as [N2 M2].
  set (q1 := qset (Quat (cos (a / 2)) 0 0 0) (1 + i1) (sin (a / 2))) in *.
  set (q2 := qset (Quat (cos (b / 2)) 0 0 0) (1 + i2) (sin (b / 2))) in *.
  fold (unit_vec ((i3 + 1) mod 3)).
  set (n := unit_vec ((i3 + 1) mod 3)).
  assert (N12 : norm2 (quat_mult q1 q2) = 1)
    by (rewrite norm2_mult, N1, N2; ring).
  rewrite (rotate_unit n _ N12), (rotmx_mult q1 q2 N1 N2), M1, M2.
  fold P.
  rewrite (rotate_unit n q Hq), HM, mvdot_mdot.
  rewrite (v3r_of_product q P i3 c H3 Hq HM).
  rewrite (orthogonal_keeps_dot P _ _ OP), KP, (orthogonal_keeps_dot P _ _ OP).
  destruct (R_axis_next i3 c H3) as [D S]. unfold n. rewrite D, S.
  now rewrite sign_sin_acos_cos.
Qed.

Ltac first_two_angles r a b :=
  unfold euler_e0_e1, unit_vec, R_axis, R_x, R_y, R_z, mvdot, mdot, mcol, mget,
    linalg.dotproduct;
  simpl;
  match goal with
  | |- (arctan2 ?Y ?X, _) = _ =>
      replace Y with (r * sin a) by ring; replace X with (r * cos a) by ring
  end;
  rewrite arctan2_polar by (assumption || lra);
  f_equal;
  match goal with
  | |- acos ?Z = _ => replace Z with (cos b) by ring; apply acos_cos; lra
  | |- asin ?Z = _ => replace Z with (sin b) by ring; apply asin_sin; lra
  | |- - asin ?Z = _ =>
      replace Z with (- sin b) by ring; rewrite asin_opp, asin_sin by lra; ring
  end.

Lemma euler_e0_e1_tait_bryan (i1 i2 i3 : nat) (a b : R) :
  In (i1, i2, i3) [(0, 1, 2); (1, 2, 0); (2, 0, 1); (0, 2, 1); (1, 0, 2); (2, 1, 0)]%nat ->
  - PI < a <= PI -> - (PI / 2) < b < PI / 2 ->
  euler_e0_e1 (mvdot (mdot (R_axis i1 a) (R_axis i2 b)) (unit_vec i3)) i1 i2 i3
  = (a, b).
Proof.
  intros Hin Ha Hb.
  assert (C : 0 < cos b) by (apply cos_gt_0; lra).
  simpl in Hin.
  destruct Hin as [E | [E | [E | [E | [E | [E | []]]]]]]; injection E as <- <- <-;
    first_two_angles (cos b) a b.
Qed.

Lemma euler_e0_e1_proper (i1 i2 i3 : nat) (a b : R) :
  In (i1, i2, i3) [(0, 1, 0); (0, 2, 0); (1, 0, 1); (1, 2, 1); (2, 0, 2); (2, 1, 2)]%nat ->
  - PI < a <= PI -> 0 < b < PI ->
  euler_e0_e1 (mvdot (mdot (R_axis i1 a) (R_axis i2 b)) (unit_vec i3)) i1 i2 i3
  = (a, b).
Proof.
  intros Hin Ha Hb.
  assert (S : 0 < sin b) by (apply sin_gt_0; lra).
  simpl in Hin.
  destruct Hin as [E | [E | [E | [E | [E | [E | []]]]]]]; injection E as <- <- <-;
    first_two_angles (sin b) a b.
Qed.

Lemma axis_matrix_index (ch : ascii) (i : nat) (t : R) :
  axis_index (Some ch) = Some i ->
  axis_matrix ch t = R_axis i t /\ in_xyz ch = true /\ (i < 3)%nat.
Proof.
  unfold axis_index, axis_matrix, in_xyz. simpl.
  destruct (Ascii.eqb ch "x"); [intros [= <-]; repeat split; lia|].
  destruct (Ascii.eqb ch "y"); [intros [= <-]; repeat split; lia|].
  destruct (Ascii.eqb ch "z"); [intros [= <-]; repeat split; lia | discriminate].
Qed.

Lemma euler_from_quat_correct (q : quat) (axes : string) (i1 i2 i3 : nat)
    (a b c : R) (M : mat3) :
  valid_axes axes = true ->
  axis_index (String.get 0 axes) = Some i1 ->
  axis_index (String.get 1 axes) = Some i2 ->
  axis_index (String.get 2 axes) = Some i3 ->
  norm2 q = 1 ->
  R_euler [a; b; c] axes = Return M ->
  rotmx_from_quat q = M ->
  euler_e0_e1 (mvdot (mdot (R_axis i1 a) (R_axis i2 b)) (unit_vec i3)) i1 i2 i3
  = (a, b) ->
  - PI < c < PI ->
  euler_from_quat q axes = ([], Return (Some (V3 a b c))).
Proof.
  intros Hv E1 E2 E3 Hq HR HM He Hc.
  destruct (euler_from_quat_valid q axes Hv) as (j1 & j2 & j3 & F1 & F2 & F3 & E).
  rewrite E1 in F1. rewrite E2 in F2. rewrite E3 in F3.
  injection F1 as <-. injection F2 as <-. injection F3 as <-.
  rewrite E. do 3 f_equal.
  destruct (valid_axes_inv axes Hv) as (c1 & c2 & c3 & -> & _).
  cbn [String.get Nat.eqb] in E1, E2, E3.
  destruct (axis_matrix_index c1 i1 a E1) as (A1 & X1 & L1).
  destruct (axis_matrix_index c2 i2 b E2) as (A2 & X2 & L2).
  destruct (axis_matrix_index c3 i3 c E3) as (A3 & X3 & L3).
  assert (HM' : rotmx_from_quat q
                = mdot (mdot (R_axis i1 a) (R_axis i2 b)) (R_axis i3 c)).
  { rewrite HM. unfold R_euler in HR.
    change (combine [a; b; c]
              (list_ascii_of_string (String c1 (String c2 (String c3 EmptyString)))))
      with [(a, c1); (b, c2); (c, c3)] in HR.
    rewrite !R_euler_loop_step in HR by assumption.
    rewrite mdot_identity3_l, A1, A2, A3 in HR. cbn [R_euler_loop] in HR.
    now injection HR as <-. }
  apply (euler_third_angle q i1 i2 i3 a b c); try assumption.
  now rewrite (v3r_of_product q _ i3 c L3 Hq HM').
Qed.

Lemma euler_from_quat_principal (q : quat) (axes : string) (a b c : R) (M : mat3) :
  principal_range axes a b c ->
  norm2 q = 1 ->
  R_euler [a; b; c] axes = Return M ->
  rotmx_from_quat q = M ->
  euler_from_quat q axes = ([], Return (Some (V3 a b c))).
Proof.
  intros (Ha & Hc & [[Hin Hb] | [Hin Hb]]) Hq HR HM.
  - simpl in Hin.
    destruct Hin as [<- | [<- | [<- | [<- | [<- | [<- | []]]]]]];
      (eapply euler_from_quat_correct;
       [reflexivity | reflexivity | reflexivity | reflexivity
       | exact Hq | exact HR | exact HM
       | apply euler_e0_e1_tait_bryan; [simpl; tauto | exact Ha | exact Hb]
       | exact Hc]).
  - simpl in Hin.
    destruct Hin as [<- | [<- | [<- | [<- | [<- | [<- | []]]]]]];
      (eapply euler_from_quat_correct;
       [reflexivity | reflexivity | reflexivity | reflexivity
       | exact Hq | exact HR | exact HM
       | apply euler_e0_e1_proper; [simpl; tauto | exact Ha | exact Hb]
       | exact Hc]).
Qed.

(** X27: for each of the six sequences with three distinct axes, angles
    a in (-pi, pi], b in (-pi/2, pi/2), c in (-pi, pi) and a unit quaternion
    whose matrix is [R_euler [a, b, c]], [euler_from_quat] returns exactly
    [a, b, c]. *)
Theorem euler_from_quat_inverts_tait_bryan (q : quat) (axes : string)
    (a b c : R) (M : mat3) :
  In axes tait_bryan_axes ->
  - PI < a <= PI -> - (PI / 2) < b < PI / 2 -> - PI < c < PI ->
  linalg.length q = 1 ->
  R_euler [a; b; c] axes = Return M ->
  rotmx_from_quat q = M ->
  euler_from_quat q axes = ([], Return (Some (V3 a b c))).
Proof.
  intros Hin Ha Hb Hc Hq HR HM.
  apply (euler_from_quat_principal q axes a b c M); try assumption.
  - unfold principal_range. auto.
  - now apply norm2_unit.
Qed.

(** X28: for each of the six sequences with a repeated axis, angles
    a in (-pi, pi], b in (0, pi), c in (-pi, pi) and a unit quaternion whose
    matrix is [R_euler [a, b, c]], [euler_from_quat] returns exactly
    [a, b, c]. *)
Theorem euler_from_quat_inverts_proper (q : quat) (axes : string)
    (a b c : R) (M : mat3) :
  In axes proper_axes ->
  - PI < a <= PI -> 0 < b < PI -> - PI < c < PI ->
  linalg.length q = 1 ->
  R_euler [a; b; c] axes = Return M ->
  rotmx_from_quat q = M ->
  euler_from_quat q axes = ([], Return (Some (V3 a b c))).
Proof.
  intros Hin Ha Hb Hc Hq HR HM.
  apply (euler_from_quat_principal q axes a b c M); try assumption.
  - unfold principal_range. auto.
  - now apply norm2_unit.
Qed.

Lemma rotmx_identity_quat : rotmx_from_quat (Quat 1 0 0 0) = identity3.
Proof. unfold rotmx_from_quat, identity3. f_equal; f_equal; ring. Qed.

Lemma length_identity_quat : linalg.length (Quat 1 0 0 0) = 1.
Proof.
  unfold linalg.length. simpl.
  replace (1 * 1 + 0 * 0 + 0 * 0 + 0 * 0) with 1 by ring. apply sqrt_1.
Qed.

Lemma euler_from_quat_inverts_tait_bryan_witness :
  euler_from_quat (Quat 1 0 0 0) "xyz" = ([], Return (Some (V3 0 0 0))).
Proof.
  pose proof PI_RGT_0 as P.
  apply (euler_from_quat_inverts_tait_bryan (Quat 1 0 0 0) "xyz" 0 0 0 identity3).
  - simpl. auto.
  - lra.
  - lra.
  - lra.
  - apply length_identity_quat.
  - apply R_euler_xyz_zero.
  - apply rotmx_identity_quat.
Defined.

Lemma length_quat_x (t : R) : linalg.length (quat_x t) = 1.
Proof.
  rewrite length_norm2.
  replace (norm2 (quat_x t)) with 1; [apply sqrt_1|].
  symmetry. apply (norm2_quat_axis "x" t).
Qed.

Lemma R_euler_zxz_quarter :
  R_euler [0; PI / 2; 0] "zxz" = Return (R_x (PI / 2)).
Proof.
  change (R_euler [0; PI / 2; 0] "zxz")
    with (Return (mdot (mdot (mdot identity3 (R_z 0)) (R_x (PI / 2))) (R_z 0))).
  now rewrite R_z_0, !mdot_identity3_l, mdot_identity3_r.
Qed.

Lemma euler_from_quat_inverts_proper_witness :
  euler_from_quat (quat_x (PI / 2)) "zxz"
  = ([], Return (Some (V3 0 (PI / 2) 0))).
Proof.
  pose proof PI_RGT_0 as P.
  apply (euler_from_quat_inverts_proper (quat_x (PI / 2)) "zxz" 0 (PI / 2) 0
           (R_x (PI / 2))).
  - simpl. tauto.
  - lra.
  - lra.
  - lra.
  - apply length_quat_x.
  - apply R_euler_zxz_quarter.
  - apply rotmx_quat_x.
Defined.

Lemma principal_range_valid (axes : string) (a b c : R) :
  principal_range axes a b c -> valid_axes axes = true.
Proof.
  intros (_ & _ & [[Hin _] | [Hin _]]); simpl in Hin;
    destruct Hin as [<- | [<- | [<- | [<- | [<- | [<- | []]]]]]]; reflexivity.
Qed.

Lemma norm2_euler_quat (c1 c2 c3 : ascii) (a b c : R) :
  norm2 (euler_quat c1 c2 c3 a b c) = 1.
Proof.
  unfold euler_quat. rewrite !norm2_mult, !norm2_quat_axis. ring.
Qed.

Lemma norm2_qopp (q : quat) : norm2 (qopp q) = norm2 q.
Proof. destruct q. unfold norm2, qopp. simpl. ring. Qed.

(** X29: on the principal range of a supported sequence, and when the w of
    the product of the three axis quaternions is not zero (the rotation is
    not a half turn), a rotation set with the Euler angles [a, b, c] gives
    back exactly [a, b, c] from [get_as_euler_angles] with the same axes. *)
Theorem euler_angles_roundtrip (self : Rotation) (axes : string) (a b c : R)
    (c1 c2 c3 : ascii) :
  principal_range axes a b c ->
  String.get 0 axes = Some c1 ->
  String.get 1 axes = Some c2 ->
  String.get 2 axes = Some c3 ->
  q_w (euler_quat c1 c2 c3 a b c) <> 0 ->
  exists r,
    set_with_euler_angles self [a; b; c] axes = Return r /\
    get_as_euler_angles r axes = ([], Return (Some (V3 a b c))).
Proof.
  intros Hp G1 G2 G3 Hw.
  pose proof (principal_range_valid axes a b c Hp) as Hv.
  assert (HR : R_euler [a; b; c] axes
               = Return (rotmx_from_quat (euler_quat c1 c2 c3 a b c))).
  { destruct (valid_axes_inv _ Hv) as (d1 & d2 & d3 & E & H1 & H2 & H3).
    rewrite E in G1, G2, G3. simpl in G1, G2, G3.
    injection G1 as <-. injection G2 as <-. injection G3 as <-.
    rewrite E. now apply R_euler_3. }
  set (Q := euler_quat c1 c2 c3 a b c) in *.
  pose proof (norm2_euler_quat c1 c2 c3 a b c) as HQ. fold Q in HQ.
  exists {| rotation_matrix := rotmx_from_quat Q |}. split.
  - unfold set_with_euler_angles. cbn [List.length Nat.eqb negb]. now rewrite HR.
  - unfold get_as_euler_angles, get_as_quaternion. cbn [rotation_matrix].
    destruct (Rlt_dec (q_w Q) 0) as [Hneg | Hpos].
    + rewrite (quat_from_rotmx_neg Q HQ Hneg).
      apply (euler_from_quat_principal (qopp Q) axes a b c (rotmx_from_quat Q));
        try assumption.
      * now rewrite norm2_qopp.
      * apply rotmx_from_quat_opp.
    + rewrite (quat_from_rotmx_pos Q HQ) by lra.
      now apply (euler_from_quat_principal Q axes a b c (rotmx_from_quat Q)).
Qed.

Lemma euler_angles_roundtrip_witness :
  exists r,
    set_with_euler_angles identity_rotation [0; 0; 0] "xyz" = Return r /\
    get_as_euler_angles r "xyz" = ([], Return (Some (V3 0 0 0))).
Proof.
  pose proof PI_RGT_0 as P.
  apply (euler_angles_roundtrip identity_rotation "xyz" 0 0 0 "x" "y" "z").
  - unfold principal_range. split; [lra|]. split; [lra|].
    left. split; [simpl; auto | lra].
  - reflexivity.
  - reflexivity.
  - reflexivity.
  - unfold euler_quat, axis_quat, quat_x, quat_y, quat_z, quat_axis, quat_mult.
    simpl. replace (0 / 2) with 0 by field. rewrite cos_0, sin_0. lra.
Defined.
